(** * Event and Booking stores, connection cache: a shallow embedding

    The development follows the three TypeScript modules of the repository:
    the Event model (its [generateSlug] helper and its pre-save hook), the
    Booking model (its pre-save hook) and [lib/mongodb.ts] ([connectDB]).
    The JavaScript built-ins those modules call (String.prototype.trim,
    toLowerCase, RegExp matching and replacing, Date parsing and
    toISOString) are modelled first, in [Module JS]. *)

From Stdlib Require Import Ascii String List ZArith NArith Lia Bool Arith.
Import ListNotations.

(* ===================================================================== *)
(** * The JavaScript built-ins used by the sources *)
(* ===================================================================== *)

Module JS.

(** A JavaScript string is a sequence of UTF-16 code units.  The model keeps
    the code units below 256, one [ascii] each; on those code units white
    space, case mapping and the classes [\s] and [\d] are exactly the
    ECMAScript ones. *)
Definition jsstring := list ascii.

(** [new Error(message)]: what a hook hands to [next] when it fails, and
    what a rejected promise carries. *)
Inductive Error : Type := MkError (message : string).

(** A promise once it has settled. *)
Inductive Settled (A : Type) : Type :=
| Fulfilled (value : A)
| Rejected (reason : Error).
Arguments Fulfilled {A} value.
Arguments Rejected {A} reason.

Definition js (s : string) : jsstring := list_ascii_of_string s.

(** ToString of a value that is a string or undefined, as a template
    literal and RegExp.prototype.test apply it. *)
Definition ToString (v : option jsstring) : jsstring :=
  match v with
  | Some s => s
  | None => js "undefined"
  end.

(** [!v] for a value that is a string or undefined: undefined and the empty
    string are falsy. *)
Definition falsy (v : option jsstring) : bool :=
  match v with
  | Some (_ :: _) => false
  | _ => true
  end.

Definition code (c : ascii) : N := N_of_ascii c.

Definition range (lo hi : ascii) (c : ascii) : bool :=
  (code lo <=? code c)%N && (code c <=? code hi)%N.

Definition isChar (a : ascii) (c : ascii) : bool := (code a =? code c)%N.

(** WhiteSpace and LineTerminator: TAB, LF, VT, FF, CR, SP and NBSP.  This is
    the set String.prototype.trim strips and the set [\s] matches. *)
Definition isWhiteSpace (c : ascii) : bool :=
  match code c with
  | 9 | 10 | 11 | 12 | 13 | 32 | 160 => true
  | _ => false
  end%N.

Definition isDigit (c : ascii) : bool := range "0" "9" c.

(** The complement of a class. *)
Definition non (p : ascii -> bool) (c : ascii) : bool := negb (p c).

Fixpoint dropWhile {A} (p : A -> bool) (l : list A) : list A :=
  match l with
  | [] => []
  | x :: l' => if p x then dropWhile p l' else l
  end.

Fixpoint takeWhile {A} (p : A -> bool) (l : list A) : list A :=
  match l with
  | [] => []
  | x :: l' => if p x then x :: takeWhile p l' else []
  end.

(** String.prototype.trimStart, trimEnd and trim. *)
Definition trimStart (s : jsstring) : jsstring := dropWhile isWhiteSpace s.
Definition trimEnd (s : jsstring) : jsstring := rev (dropWhile isWhiteSpace (rev s)).
Definition trim (s : jsstring) : jsstring := trimEnd (trimStart s).

(** Unicode lower-case mapping of one code unit below 256: A-Z, and the
    Latin-1 capitals U+00C0..U+00DE except the multiplication sign U+00D7,
    move up by 32; every other code unit is its own image. *)
Definition lower (c : ascii) : ascii :=
  if range "A" "Z" c
     || ((192 <=? code c)%N && (code c <=? 222)%N && negb (code c =? 215)%N)
  then ascii_of_N (code c + 32) else c.

(** String.prototype.toLowerCase. *)
Definition toLowerCase (s : jsstring) : jsstring := map lower s.

(** String.prototype.split(sep)[0] for a one-character separator: the part
    of the string before the first occurrence of the separator. *)
Definition splitHead (sep : ascii) (s : jsstring) : jsstring :=
  takeWhile (fun c => negb (isChar sep c)) s.

(** ** Regular expressions

    The fragment of the RegExp grammar the sources use: the assertions [^]
    and [$], a character class (a literal, [\d], [\s], a bracket
    expression), concatenation, alternation, the greedy quantifier [+] and
    capturing groups. *)
Inductive regex : Type :=
| Bol
| Eol
| Cls (p : ascii -> bool)
| Cat (r1 r2 : regex)
| Alt (r1 r2 : regex)
| Plus (r : regex)
| Grp (n : nat) (r : regex).

Definition captures := list (nat * jsstring).

(** One way of matching at a position: the text consumed, the input left,
    and the groups captured so far. *)
Definition outcome : Type := jsstring * jsstring * captures.

Definition consumed_more (m1 : jsstring) (o : outcome) : outcome :=
  let '(m, s, c) := o in (m1 ++ m, s, c).

(** The iterations of [r+], where [step] matches [r] once: after an
    iteration, go on with more iterations first (the quantifier is greedy),
    then stop.  An iteration that consumes nothing is not repeated.  Every
    further iteration shortens the input, so [S (length s)] rounds of fuel
    are never used up. *)
Fixpoint iterate (step : nat -> jsstring -> captures -> list outcome)
  (fuel : nat) (pos : nat) (s : jsstring) (caps : captures) : list outcome :=
  match fuel with
  | O => []
  | S fuel' =>
      flat_map
        (fun o1 => let '(m1, s1, c1) := o1 in
           match m1 with
           | [] => []
           | _ :: _ =>
               map (consumed_more m1) (iterate step fuel' (pos + length m1) s1 c1)
           end ++ [o1])
        (step pos s caps)
  end.

(** A step of matching that only ever consumes a prefix of its input. *)
Definition prefixes (step : nat -> jsstring -> captures -> list outcome) : Prop :=
  forall pos s caps m s' c, In (m, s', c) (step pos s caps) -> s = m ++ s'.

(** The backtracking matcher.  [run r pos s caps] lists every way [r]
    matches a prefix of [s], the input from index [pos] on, in the order a
    backtracking engine tries them: the head of the list is the match the
    engine reports once the rest of the pattern goes through. *)
Fixpoint run (r : regex) (pos : nat) (s : jsstring) (caps : captures)
  : list outcome :=
  match r with
  | Bol => if pos =? 0 then [([], s, caps)] else []
  | Eol => match s with [] => [([], s, caps)] | _ :: _ => [] end
  | Cls p =>
      match s with
      | c :: s' => if p c then [([c], s', caps)] else []
      | [] => []
      end
  | Cat r1 r2 =>
      flat_map
        (fun o1 => let '(m1, s1, c1) := o1 in
                   map (consumed_more m1) (run r2 (pos + length m1) s1 c1))
        (run r1 pos s caps)
  | Alt r1 r2 => run r1 pos s caps ++ run r2 pos s caps
  | Plus r1 => iterate (run r1) (S (length s)) pos s caps
  | Grp n r1 =>
      map (fun o => let '(m, s', c) := o in (m, s', (n, m) :: c))
          (run r1 pos s caps)
  end.

(** A match result: the index where the match starts, the matched text, the
    input after it and the captured groups. *)
Record MatchResult : Type := mkMatch {
  index : nat;
  matched : jsstring;
  after : jsstring;
  groups : captures
}.

(** RegExpBuiltinExec for a regex without the sticky flag: the first index
    at or after [pos] where the pattern matches. *)
Fixpoint search (r : regex) (pos : nat) (s : jsstring) : option MatchResult :=
  match run r pos s [] with
  | (m, s', c) :: _ => Some (mkMatch pos m s' c)
  | [] =>
      match s with
      | [] => None
      | _ :: s' => search r (S pos) s'
      end
  end.

(** RegExp.prototype.exec and String.prototype.match for a non-global regex. *)
Definition exec (r : regex) (s : jsstring) : option MatchResult := search r 0 s.

(** RegExp.prototype.test. *)
Definition test (r : regex) (s : jsstring) : bool :=
  match exec r s with Some _ => true | None => false end.

Fixpoint lookup (n : nat) (c : captures) : option jsstring :=
  match c with
  | [] => None
  | (k, m) :: c' => if k =? n then Some m else lookup n c'
  end.

(** Element [n] (from 1) of a match array; a group that took no part in the
    match is [undefined]. *)
Definition group (n : nat) (m : MatchResult) : option jsstring :=
  lookup n (groups m).

(** String.prototype.replace with a global regex and a replacement string
    without [$] patterns.  [s] is the input from index [pos] on; each round
    finds the next match, copies the text before it, emits the replacement
    and goes on behind the match (one code unit further after an empty
    match). *)
Fixpoint replace_from (fuel : nat) (r : regex) (repl : jsstring)
  (pos : nat) (s : jsstring) : jsstring :=
  match fuel with
  | O => s
  | S fuel' =>
      match search r pos s with
      | None => s
      | Some m =>
          firstn (index m - pos) s ++ repl ++
          match matched m with
          | [] =>
              match after m with
              | [] => []
              | c :: s' => c :: replace_from fuel' r repl (S (index m)) s'
              end
          | _ :: _ =>
              replace_from fuel' r repl (index m + length (matched m)) (after m)
          end
      end
  end.

Definition replace (r : regex) (repl : jsstring) (s : jsstring) : jsstring :=
  replace_from (S (length s)) r repl 0 s.

(** ** Dates

    A time value is a number of milliseconds since 1970-01-01T00:00:00Z; an
    invalid Date has the time value NaN, modelled as [None].  The
    definitions follow the abstract operations of ECMA-262, section
    "Time Values and Time Range". *)
Local Open Scope Z_scope.

Definition msPerDay : Z := 86400000.
Definition msPerHour : Z := 3600000.
Definition msPerMinute : Z := 60000.
Definition msPerSecond : Z := 1000.

Definition Day (t : Z) : Z := t / msPerDay.
Definition TimeWithinDay (t : Z) : Z := t mod msPerDay.

Definition isLeapYear (y : Z) : bool :=
  ((y mod 4 =? 0) && negb (y mod 100 =? 0)) || (y mod 400 =? 0).

Definition DaysInYear (y : Z) : Z := if isLeapYear y then 366 else 365.

Definition DayFromYear (y : Z) : Z :=
  365 * (y - 1970) + (y - 1969) / 4 - (y - 1901) / 100 + (y - 1601) / 400.

(** The largest year [y] with [DayFromYear y <= Day t], computed over the
    400-, 100-, 4- and 1-year cycles counted from 1601-01-01. *)
Definition YearFromDay (d : Z) : Z :=
  let n := d - DayFromYear 1601 in
  let q400 := n / 146097 in
  let r400 := n mod 146097 in
  let q100 := Z.min (r400 / 36524) 3 in
  let r100 := r400 - 36524 * q100 in
  let q4 := r100 / 1461 in
  let r4 := r100 mod 1461 in
  let q1 := Z.min (r4 / 365) 3 in
  1601 + 400 * q400 + 100 * q100 + 4 * q4 + q1.

Definition YearFromTime (t : Z) : Z := YearFromDay (Day t).

Definition InLeapYear (t : Z) : Z :=
  if isLeapYear (YearFromTime t) then 1 else 0.

Definition DayWithinYear (t : Z) : Z := Day t - DayFromYear (YearFromTime t).

(** The day of the year on which month [m] (0 = January) starts. *)
Definition monthStart (m : Z) (leap : Z) : Z :=
  match m with
  | 0 => 0
  | 1 => 31
  | 2 => 59 + leap
  | 3 => 90 + leap
  | 4 => 120 + leap
  | 5 => 151 + leap
  | 6 => 181 + leap
  | 7 => 212 + leap
  | 8 => 243 + leap
  | 9 => 273 + leap
  | 10 => 304 + leap
  | 11 => 334 + leap
  | _ => 365 + leap
  end.

Definition MonthFromTime (t : Z) : Z :=
  let d := DayWithinYear t in
  let l := InLeapYear t in
  if d <? 31 then 0
  else if d <? 59 + l then 1
  else if d <? 90 + l then 2
  else if d <? 120 + l then 3
  else if d <? 151 + l then 4
  else if d <? 181 + l then 5
  else if d <? 212 + l then 6
  else if d <? 243 + l then 7
  else if d <? 273 + l then 8
  else if d <? 304 + l then 9
  else if d <? 334 + l then 10
  else 11.

Definition DateFromTime (t : Z) : Z :=
  DayWithinYear t - monthStart (MonthFromTime t) (InLeapYear t) + 1.

Definition HourFromTime (t : Z) : Z := (t / msPerHour) mod 24.
Definition MinFromTime (t : Z) : Z := (t / msPerMinute) mod 60.
Definition SecFromTime (t : Z) : Z := (t / msPerSecond) mod 60.
Definition msFromTime (t : Z) : Z := t mod msPerSecond.

Definition MakeTime (hour min sec ms : Z) : Z :=
  hour * msPerHour + min * msPerMinute + sec * msPerSecond + ms.

Definition MakeDay (year month date : Z) : Z :=
  let ym := year + month / 12 in
  let mn := month mod 12 in
  DayFromYear ym + monthStart mn (if isLeapYear ym then 1 else 0) + date - 1.

Definition MakeDate (day time : Z) : Z := day * msPerDay + time.

(** TimeClip: a time value further than 8.64e15 ms from the epoch is NaN. *)
Definition TimeClip (t : option Z) : option Z :=
  match t with
  | Some v => if Z.abs v <=? 8640000000000000 then Some v else None
  | None => None
  end.

Definition DaysInMonth (year month : Z) : Z :=
  let l := if isLeapYear year then 1 else 0 in
  monthStart (month + 1) l - monthStart month l.

(** *** The Date Time String Format

    [YYYY-MM-DDTHH:mm:ss.sssZ], its date-only forms [YYYY], [YYYY-MM],
    [YYYY-MM-DD], the time forms [THH:mm], [THH:mm:ss], [THH:mm:ss.sss], an
    optional offset [Z] or [+HH:mm] / [-HH:mm] behind a time, and expanded
    years [+YYYYYY] / [-YYYYYY]. *)

Fixpoint digits (n : nat) (acc : Z) (s : jsstring) : option (Z * jsstring) :=
  match n with
  | O => Some (acc, s)
  | S n' =>
      match s with
      | c :: s' =>
          if isDigit c then digits n' (10 * acc + (Z.of_N (code c) - 48)) s'
          else None
      | [] => None
      end
  end.

Definition expect (a : ascii) (s : jsstring) : option jsstring :=
  match s with
  | c :: s' => if isChar a c then Some s' else None
  | [] => None
  end.

Definition startsWith (a : ascii) (s : jsstring) : bool :=
  match s with
  | c :: _ => isChar a c
  | [] => false
  end.

Notation "'try' x <- e 'in' k" :=
  (match e with Some x => k | None => None end)
  (at level 10, x pattern, e at level 100, k at level 200).

Definition parseYear (s : jsstring) : option (Z * jsstring) :=
  if startsWith "+" s then digits 6 0 (tl s)
  else if startsWith "-" s then
    try (y, s') <- digits 6 0 (tl s) in
    if y =? 0 then None else Some (- y, s')
  else digits 4 0 s.

(** Month (1..12) and day of the month of a date-only form; absent fields
    default to 1. *)
Definition parseMonthDay (year : Z) (s : jsstring) : option (Z * Z * jsstring) :=
  if startsWith "-" s then
    try (month, s1) <- digits 2 0 (tl s) in
    if (1 <=? month) && (month <=? 12) then
      if startsWith "-" s1 then
        try (day, s2) <- digits 2 0 (tl s1) in
        if (1 <=? day) && (day <=? DaysInMonth year (month - 1))
        then Some (month, day, s2) else None
      else Some (month, 1, s1)
    else None
  else Some (1, 1, s).

(** The time of day in milliseconds of a time form [HH:mm], [HH:mm:ss] or
    [HH:mm:ss.sss]; 24:00:00.000 is the end of the day. *)
Definition parseTimeOfDay (s : jsstring) : option (Z * jsstring) :=
  try (h, s1) <- digits 2 0 s in
  try s2 <- expect ":" s1 in
  try (m, s3) <- digits 2 0 s2 in
  try (sec, ms, s4) <-
    (if startsWith ":" s3 then
       try (sec, s5) <- digits 2 0 (tl s3) in
       if startsWith "." s5 then
         try (ms, s6) <- digits 3 0 (tl s5) in Some (sec, ms, s6)
       else Some (sec, 0, s5)
     else Some (0, 0, s3)) in
  if ((h <=? 23) && (m <=? 59) && (sec <=? 59))
     || ((h =? 24) && (m =? 0) && (sec =? 0) && (ms =? 0))
  then Some (MakeTime h m sec ms, s4) else None.

(** The offset in milliseconds east of UTC, or [None] when the string gives
    no offset (local time); the input must end behind it. *)
Definition parseOffset (s : jsstring) : option (option Z) :=
  match s with
  | [] => Some None
  | c :: s' =>
      if isChar "Z" c then
        match s' with [] => Some (Some 0) | _ :: _ => None end
      else if isChar "+" c || isChar "-" c then
        try (h, s1) <- digits 2 0 s' in
        try s2 <- expect ":" s1 in
        try (m, s3) <- digits 2 0 s2 in
        match s3 with
        | [] =>
            if (h <=? 23) && (m <=? 59) then
              let off := h * msPerHour + m * msPerMinute in
              Some (Some (if isChar "-" c then - off else off))
            else None
        | _ :: _ => None
        end
      else None
  end.

(** What is left to the implementation: the time zone, as the translation of
    a local time value to UTC, and the parsing of strings that are not in
    the Date Time String Format (Date.parse may fall back to any format of
    the implementation's own). *)
Record Engine : Type := mkEngine {
  UTC : Z -> Z;
  parseFallback : jsstring -> option Z
}.

(** A string in the Date Time String Format: its time value.  A date-only
    form is UTC; a date-time form without offset is local time. *)
Definition parseISO (E : Engine) (s : jsstring) : option Z :=
  try (year, s1) <- parseYear s in
  try (month, day, s2) <- parseMonthDay year s1 in
  let d := MakeDay year (month - 1) day in
  match s2 with
  | [] => Some (MakeDate d 0)
  | c :: s3 =>
      if isChar "T" c then
        try (time, s4) <- parseTimeOfDay s3 in
        try off <- parseOffset s4 in
        match off with
        | Some o => Some (MakeDate d time - o)
        | None => Some (UTC E (MakeDate d time))
        end
      else None
  end.

(** Date.parse. *)
Definition Date_parse (E : Engine) (s : jsstring) : option Z :=
  match parseISO E s with
  | Some t => Some t
  | None => parseFallback E s
  end.

(** [new Date(s).getTime()] for a string [s]. *)
Definition Date_getTime (E : Engine) (s : jsstring) : option Z :=
  TimeClip (Date_parse E s).

(** Decimal digits of a natural number, most significant first. *)
Fixpoint decimal_go (fuel : nat) (n : Z) (acc : jsstring) : jsstring :=
  match fuel with
  | O => acc
  | S fuel' =>
      let acc' := ascii_of_N (Z.to_N (48 + n mod 10)) :: acc in
      if n <? 10 then acc' else decimal_go fuel' (n / 10) acc'
  end.

Definition decimal (n : Z) : jsstring :=
  decimal_go (S (Z.to_nat (Z.log2 n))) n [].

(** The number a string of decimal digits stands for. *)
Fixpoint numberOf (s : jsstring) : Z :=
  match s with
  | [] => 0
  | c :: s' => (Z.of_N (code c) - 48) * 10 ^ Z.of_nat (length s') + numberOf s'
  end.

(** String.prototype.padStart with the fill string "0". *)
Definition padStart0 (width : nat) (s : jsstring) : jsstring :=
  repeat "0"%char (width - length s) ++ s.

Definition pad (width : nat) (n : Z) : jsstring := padStart0 width (decimal n).

Definition yearString (y : Z) : jsstring :=
  if (0 <=? y) && (y <=? 9999) then pad 4 y
  else (if y <? 0 then js "-" else js "+") ++ pad 6 (Z.abs y).

(** Date.prototype.toISOString of a valid time value. *)
Definition toISOString (t : Z) : jsstring :=
  yearString (YearFromTime t) ++ js "-" ++ pad 2 (MonthFromTime t + 1) ++
  js "-" ++ pad 2 (DateFromTime t) ++ js "T" ++ pad 2 (HourFromTime t) ++
  js ":" ++ pad 2 (MinFromTime t) ++ js ":" ++ pad 2 (SecFromTime t) ++
  js "." ++ pad 3 (msFromTime t) ++ js "Z".

Local Close Scope Z_scope.

End JS.

Import JS.

Declare Scope regex_scope.
Delimit Scope regex_scope with re.
Bind Scope regex_scope with regex.
Infix ">>" := Cat (at level 61, right associativity) : regex_scope.
Infix "<|>" := Alt (at level 66, right associativity) : regex_scope.

(* ===================================================================== *)
(** * database/event.model.ts *)
(* ===================================================================== *)

Module EventModel.

(** The names in [requiredStringFields]. *)
Inductive Field : Type :=
| Ftitle
| Fdescription
| Foverview
| Fimage
| Fvenue
| Flocation
| Fdate
| Ftime
| Fmode
| Faudience
| Forganizer.

Definition String_ (f : Field) : string :=
  match f with
  | Ftitle => "title"
  | Fdescription => "description"
  | Foverview => "overview"
  | Fimage => "image"
  | Fvenue => "venue"
  | Flocation => "location"
  | Fdate => "date"
  | Ftime => "time"
  | Fmode => "mode"
  | Faudience => "audience"
  | Forganizer => "organizer"
  end.

(** The items of an array attribute as they are at run time: an item that is
    no string (null, undefined) is [None]. *)
Definition Items : Type := list (option jsstring).

(** Event document shape stored in MongoDB.  A string attribute that holds
    no string at run time (undefined, null) is [None]; so is an array
    attribute that holds no array.  [createdAt] and [updatedAt] are managed
    by Mongoose and play no part in the hook.  [isModified] is the
    document's change tracking: [isModified d path] is the answer of
    [this.isModified(path)].  The assignments of the hook go through
    Mongoose's setters, which keep this tracking up to date (see [assigned]
    below). *)
Record EventDocument : Type := mkEvent {
  title : option jsstring;
  slug : option jsstring;
  description : option jsstring;
  overview : option jsstring;
  image : option jsstring;
  venue : option jsstring;
  location : option jsstring;
  date : option jsstring;
  time : option jsstring;
  mode : option jsstring;
  audience : option jsstring;
  agenda : option Items;
  organizer : option jsstring;
  tags : option Items;
  isModified : string -> bool
}.

(** [this[field]] *)
Definition get (f : Field) (d : EventDocument) : option jsstring :=
  match f with
  | Ftitle => title d
  | Fdescription => description d
  | Foverview => overview d
  | Fimage => image d
  | Fvenue => venue d
  | Flocation => location d
  | Fdate => date d
  | Ftime => time d
  | Fmode => mode d
  | Faudience => audience d
  | Forganizer => organizer d
  end.

(** [a === b] on strings. *)
Fixpoint sameString (a b : jsstring) : bool :=
  match a, b with
  | [], [] => true
  | x :: a', y :: b' => Ascii.eqb x y && sameString a' b'
  | _, _ => false
  end.

(** Equality of two values of a string attribute. *)
Definition sameValue (a b : option jsstring) : bool :=
  match a, b with
  | Some x, Some y => sameString x y
  | None, None => true
  | _, _ => false
  end.

(** Equality of two arrays, item by item. *)
Fixpoint sameItems (a b : Items) : bool :=
  match a, b with
  | [], [] => true
  | x :: a', y :: b' => sameValue x y && sameItems a' b'
  | _, _ => false
  end.

Definition sameArray (a b : option Items) : bool :=
  match a, b with
  | Some x, Some y => sameItems x y
  | None, None => true
  | _, _ => false
  end.

(** Mongoose's change tracking at an assignment [this[path] = v]: the path
    becomes modified when the value assigned is not the value held
    ([changed]); a path that is modified stays so, and no other path is
    touched.  The values that the hook assigns are trimmed, so that the
    [trim] setters of the schema store them as they are.  (On a document
    that was never saved Mongoose marks the path at every assignment; the
    title of such a document is modified from the time it was given, and
    the title is the one path that the hook asks about.) *)
Definition assigned (path : string) (changed : bool)
  (isModified : string -> bool) : string -> bool :=
  if changed then fun p => (p =? path)%string || isModified p else isModified.

(** [this[field] = v] *)
Definition set (f : Field) (v : jsstring) (d : EventDocument) : EventDocument :=
  let '(mkEvent ti sl de ov im ve lo da tm mo au ag og tg md) := d in
  let md' := assigned (String_ f) (negb (sameValue (get f d) (Some v))) md in
  match f with
  | Ftitle => mkEvent (Some v) sl de ov im ve lo da tm mo au ag og tg md'
  | Fdescription => mkEvent ti sl (Some v) ov im ve lo da tm mo au ag og tg md'
  | Foverview => mkEvent ti sl de (Some v) im ve lo da tm mo au ag og tg md'
  | Fimage => mkEvent ti sl de ov (Some v) ve lo da tm mo au ag og tg md'
  | Fvenue => mkEvent ti sl de ov im (Some v) lo da tm mo au ag og tg md'
  | Flocation => mkEvent ti sl de ov im ve (Some v) da tm mo au ag og tg md'
  | Fdate => mkEvent ti sl de ov im ve lo (Some v) tm mo au ag og tg md'
  | Ftime => mkEvent ti sl de ov im ve lo da (Some v) mo au ag og tg md'
  | Fmode => mkEvent ti sl de ov im ve lo da tm (Some v) au ag og tg md'
  | Faudience => mkEvent ti sl de ov im ve lo da tm mo (Some v) ag og tg md'
  | Forganizer => mkEvent ti sl de ov im ve lo da tm mo au ag (Some v) tg md'
  end.

(** [this.slug = v] *)
Definition set_slug (v : jsstring) (d : EventDocument) : EventDocument :=
  let '(mkEvent ti sl de ov im ve lo da tm mo au ag og tg md) := d in
  mkEvent ti (Some v) de ov im ve lo da tm mo au ag og tg
    (assigned "slug" (negb (sameValue sl (Some v))) md).

(** [this.agenda = v] *)
Definition set_agenda (v : Items) (d : EventDocument) : EventDocument :=
  let '(mkEvent ti sl de ov im ve lo da tm mo au ag og tg md) := d in
  mkEvent ti sl de ov im ve lo da tm mo au (Some v) og tg
    (assigned "agenda" (negb (sameArray ag (Some v))) md).

(** [this.tags = v] *)
Definition set_tags (v : Items) (d : EventDocument) : EventDocument :=
  let '(mkEvent ti sl de ov im ve lo da tm mo au ag og tg md) := d in
  mkEvent ti sl de ov im ve lo da tm mo au ag og (Some v)
    (assigned "tags" (negb (sameArray tg (Some v))) md).

(** [[^a-z0-9\s-]] *)
Definition notSlugChar (c : ascii) : bool :=
  negb (range "a" "z" c || range "0" "9" c || isWhiteSpace c || isChar "-" c).

(** Helper to generate a URL-friendly slug from the title. *)
Definition generateSlug (title : jsstring) : jsstring :=
  replace (Plus (Cls (isChar "-"))) (js "-")
    (replace (Plus (Cls isWhiteSpace)) (js "-")
       (replace (Cls notSlugChar) (js "")
          (toLowerCase (trim title)))).

(** The validators of [agenda] and [tags] in the schema: a non-empty array
    whose items are all non-blank strings. *)
Definition nonEmptyItems (value : list jsstring) : bool :=
  negb (length value =? 0) && forallb (fun item => 0 <? length (trim item)) value.

(** [/^([01]\d|2[0-3]):([0-5]\d)$/] *)
Definition timeRegex : regex :=
  (Bol >>
   Grp 1 ((Cls (range "0" "1") >> Cls isDigit)
          <|> (Cls (isChar "2") >> Cls (range "0" "3"))) >>
   Cls (isChar ":") >>
   Grp 2 (Cls (range "0" "5") >> Cls isDigit) >>
   Eol)%re.

(** ** The body of a hook

    The hook works on [this], which it updates in place, and leaves early
    with [return next(error)].  A computation takes the document and gives
    back the document as it has become, with either the error handed to
    [next] or a value to go on with. *)
Definition Hook (A : Type) : Type := EventDocument -> EventDocument * (Error + A).

Definition ret {A} (a : A) : Hook A := fun d => (d, inr a).

Definition bind {A B} (m : Hook A) (k : A -> Hook B) : Hook B :=
  fun d =>
    match m d with
    | (d', inr a) => k a d'
    | (d', inl e) => (d', inl e)
    end.

(** [return next(e)] *)
Definition next_error {A} (e : Error) : Hook A := fun d => (d, inl e).

Definition this : Hook EventDocument := fun d => (d, inr d).

Definition assign (f : EventDocument -> EventDocument) : Hook unit :=
  fun d => (f d, inr tt).

Notation "x <- m ;; k" := (bind m (fun x => k))
  (at level 61, m at next level, right associativity).
Notation "m ;; k" := (bind m (fun _ => k))
  (at level 61, right associativity).

Fixpoint forEach {A} (l : list A) (body : A -> Hook unit) : Hook unit :=
  match l with
  | [] => ret tt
  | x :: l' => body x ;; forEach l' body
  end.

Definition requiredStringFields : list Field :=
  [Ftitle; Fdescription; Foverview; Fimage; Fvenue; Flocation; Fdate; Ftime;
   Fmode; Faudience; Forganizer].

Definition quote : string := String "034"%char EmptyString.

Definition requiredError (field : Field) : Error :=
  MkError ("Field " ++ quote ++ String_ field ++ quote ++
           " is required and must be a non-empty string.")%string.

(** The TypeError that the engine throws at [x.trim()] when [x] is not a
    string, or at [x.map(...)] when [x] is not an array, as the [catch]
    clause hands it to [next].  The message of such an error is the
    engine's own: the model keeps one value for them all, named by their
    class. *)
Definition typeError : Error := MkError "TypeError".

(** The body of the loop over [requiredStringFields]. *)
Definition requireField (field : Field) : Hook unit :=
  d <- this ;;
  match get field d with
  | None => next_error (requiredError field)
  | Some value =>
      if length (trim value) =? 0 then next_error (requiredError field)
      else assign (set field (trim value))
  end.

(** [items.map((item) => item.trim())]: the items trimmed, or nothing when
    [item.trim()] throws at an item that is no string. *)
Fixpoint trimItems (items : Items) : option Items :=
  match items with
  | [] => Some []
  | Some item :: rest =>
      match trimItems rest with
      | Some rest' => Some (Some (trim item) :: rest')
      | None => None
      end
  | None :: _ => None
  end.

(** Normalize agenda items by trimming whitespace:
    [this.agenda = this.agenda.map((item) => item.trim())]. *)
Definition trimAgenda : Hook unit :=
  d <- this ;;
  match agenda d with
  | None => next_error typeError
  | Some items =>
      match trimItems items with
      | None => next_error typeError
      | Some items' => assign (set_agenda items')
      end
  end.

(** Normalize tags items by trimming whitespace:
    [this.tags = this.tags.map((item) => item.trim())]. *)
Definition trimTags : Hook unit :=
  d <- this ;;
  match tags d with
  | None => next_error typeError
  | Some items =>
      match trimItems items with
      | None => next_error typeError
      | Some items' => assign (set_tags items')
      end
  end.

(** Normalize and validate date to ISO format (YYYY-MM-DD). *)
Definition normalizeDate (E : Engine) : Hook unit :=
  d <- this ;;
  let parsedDate :=
    match date d with
    | Some s => Date_getTime E s
    | None => None
    end in
  match parsedDate with
  | None =>
      next_error (MkError "Invalid date format. Expected a parsable date string.")
  | Some t => assign (set Fdate (splitHead "T" (toISOString t)))
  end.

(** Normalize and validate time to HH:MM (24-hour). *)
Definition normalizeTime : Hook unit :=
  d <- this ;;
  match time d with
  | None => next_error typeError
  | Some t =>
      let timeValue := trim t in
      match exec timeRegex timeValue with
      | None =>
          next_error
            (MkError "Invalid time format. Expected HH:MM in 24-hour format.")
      | Some timeMatch =>
          let hours := group 1 timeMatch in
          let minutes := group 2 timeMatch in
          assign (set Ftime (ToString hours ++ js ":" ++ ToString minutes))
      end
  end.

(** Generate slug from title only if title changed or slug is missing. *)
Definition updateSlug : Hook unit :=
  d <- this ;;
  if isModified d "title" || falsy (slug d) then
    match title d with
    | Some t => assign (set_slug (generateSlug t))
    | None => next_error typeError
    end
  else ret tt.

Definition preSaveBody (E : Engine) : Hook unit :=
  forEach requiredStringFields requireField ;;
  trimAgenda ;;
  trimTags ;;
  normalizeDate E ;;
  normalizeTime ;;
  updateSlug.

(** Pre-save hook: validate required fields, normalize date/time, and
    generate slug.  The result is the document as the hook leaves it and
    what the hook hands to [next]: an error, or nothing. *)
Definition preSave (E : Engine) (d : EventDocument) : EventDocument * option Error :=
  match preSaveBody E d with
  | (d', inr _) => (d', None)
  | (d', inl e) => (d', Some e)
  end.

(** ** Reading a run of the hook

    What the hook tests of a document, and the document it leaves when all
    the tests pass. *)

(** A required attribute passes the loop: it is a string, not blank. *)
Definition present (v : option jsstring) : bool :=
  match v with
  | Some value => negb (length (trim value) =? 0)
  | None => false
  end.

Definition allPresent (d : EventDocument) : bool :=
  forallb (fun f => present (get f d)) requiredStringFields.

Definition trimmed (v : option jsstring) : option jsstring := option_map trim v.

(** The time value of the date, as the hook parses it behind the loop. *)
Definition parsedDate (E : Engine) (d : EventDocument) : option Z :=
  match trimmed (date d) with
  | Some s => Date_getTime E s
  | None => None
  end.

(** The match of the time, as the hook computes it behind the loop. *)
Definition timeMatch (d : EventDocument) : option MatchResult :=
  match trimmed (time d) with
  | Some s => exec timeRegex (trim s)
  | None => None
  end.

(** An array attribute is an array whose items are all strings. *)
Definition isStrings (a : option Items) : bool :=
  match a with
  | Some items =>
      forallb (fun item => match item with Some _ => true | None => false end)
              items
  | None => false
  end.

(** The agenda and the tags can be trimmed item by item. *)
Definition stringArrays (d : EventDocument) : bool :=
  isStrings (agenda d) && isStrings (tags d).

Definition trimmedItems (a : option Items) : option Items :=
  option_map (map (option_map trim)) a.

(** The change tracking that the assignments of a successful run leave, up
    to the test of the slug: the eleven attributes of the loop, the agenda,
    the tags, the date and the time. *)
Definition tracked (d : EventDocument) (t : Z) (m : MatchResult) : string -> bool :=
  assigned "time"
    (negb (sameValue (trimmed (time d))
             (Some (ToString (group 1 m) ++ js ":" ++ ToString (group 2 m)))))
  (assigned "date"
    (negb (sameValue (trimmed (date d)) (Some (splitHead "T" (toISOString t)))))
  (assigned "tags" (negb (sameArray (tags d) (trimmedItems (tags d))))
  (assigned "agenda" (negb (sameArray (agenda d) (trimmedItems (agenda d))))
  (assigned "organizer" (negb (sameValue (organizer d) (trimmed (organizer d))))
  (assigned "audience" (negb (sameValue (audience d) (trimmed (audience d))))
  (assigned "mode" (negb (sameValue (mode d) (trimmed (mode d))))
  (assigned "time" (negb (sameValue (time d) (trimmed (time d))))
  (assigned "date" (negb (sameValue (date d) (trimmed (date d))))
  (assigned "location" (negb (sameValue (location d) (trimmed (location d))))
  (assigned "venue" (negb (sameValue (venue d) (trimmed (venue d))))
  (assigned "image" (negb (sameValue (image d) (trimmed (image d))))
  (assigned "overview" (negb (sameValue (overview d) (trimmed (overview d))))
  (assigned "description"
    (negb (sameValue (description d) (trimmed (description d))))
  (assigned "title" (negb (sameValue (title d) (trimmed (title d))))
    (isModified d))))))))))))))).

(** The test of l.142, in a run that reaches it:
    [this.isModified('title') || !this.slug]. *)
Definition slugDue (d : EventDocument) (t : Z) (m : MatchResult) : bool :=
  tracked d t m "title" || falsy (slug d).

(** The document a successful run leaves, given the parsed date and the
    match of the time. *)
Definition normalized (d : EventDocument) (t : Z) (m : MatchResult) : EventDocument :=
  mkEvent
    (trimmed (title d))
    (if slugDue d t m
     then option_map generateSlug (trimmed (title d)) else slug d)
    (trimmed (description d)) (trimmed (overview d)) (trimmed (image d))
    (trimmed (venue d)) (trimmed (location d))
    (Some (splitHead "T" (toISOString t)))
    (Some (ToString (group 1 m) ++ js ":" ++ ToString (group 2 m)))
    (trimmed (mode d)) (trimmed (audience d))
    (trimmedItems (agenda d)) (trimmed (organizer d)) (trimmedItems (tags d))
    (if slugDue d t m
     then assigned "slug"
            (negb (sameValue (slug d)
                     (option_map generateSlug (trimmed (title d)))))
            (tracked d t m)
     else tracked d t m).

(** The title is modified when the hook tests it at l.142: it was modified
    when the hook began, or the trimming of the loop has changed it. *)
Definition titleModified (d : EventDocument) : bool :=
  isModified d "title" || negb (sameValue (title d) (trimmed (title d))).

(** Five characters: two digits from 00 to 23, a colon, two digits from 00
    to 59. *)
Definition isHHMM (s : jsstring) : bool :=
  match s with
  | [h1; h2; c; m1; m2] =>
      ((range "0" "1" h1 && isDigit h2) || (isChar "2" h1 && range "0" "3" h2))
      && isChar ":" c && range "0" "5" m1 && isDigit m2
  | _ => false
  end.

(** Ten characters: four digits, a hyphen, two digits, a hyphen, two
    digits. *)
Definition isYYYYMMDD (s : jsstring) : bool :=
  match s with
  | [y1; y2; y3; y4; a; m1; m2; b; d1; d2] =>
      isDigit y1 && isDigit y2 && isDigit y3 && isDigit y4 && isChar "-" a
      && isDigit m1 && isDigit m2 && isChar "-" b && isDigit d1 && isDigit d2
  | _ => false
  end.

(** The characters of a slug: lower-case letters, digits and the hyphen. *)
Definition slugChar (c : ascii) : bool :=
  range "a" "z" c || range "0" "9" c || isChar "-" c.

(** The time attribute is a string whose trimmed form matches the pattern. *)
Definition timeOK (d : EventDocument) : bool :=
  match time d with
  | Some t => test timeRegex (trim t)
  | None => false
  end.

(** An engine that runs in UTC and parses no other format than the Date
    Time String Format. *)
Definition utcEngine : Engine := mkEngine (fun t => t) (fun _ => None).

(** An Event with every attribute filled in, to vary in the title, the slug,
    the date, the time and the answer of [isModified] when the hook
    begins. *)
Definition sampleEvent (title : jsstring) (slug : option jsstring)
  (date time : jsstring) (modified : bool) : EventDocument :=
  mkEvent (Some title) slug
    (Some (js "A meetup for developers")) (Some (js "Talks and networking"))
    (Some (js "/images/event.png")) (Some (js "Main hall"))
    (Some (js "Berlin")) (Some date) (Some time) (Some (js "offline"))
    (Some (js "Developers")) (Some [Some (js "Doors open"); Some (js "Talks")])
    (Some (js "Dev Events")) (Some [Some (js "tech"); Some (js "meetup")])
    (fun _ => modified).

End EventModel.

Import EventModel.

(* ===================================================================== *)
(** * database/booking.model.ts *)
(* ===================================================================== *)

Module BookingModel.

(** A MongoDB ObjectId: a 12-byte value. *)
Definition ObjectId : Type := N.

(** Booking document shape stored in MongoDB ([createdAt] and [updatedAt]
    are managed by Mongoose).  An attribute that is unset is [None]. *)
Record BookingDocument : Type := mkBooking {
  eventId : option ObjectId;
  email : option jsstring
}.

(** [[^\s@]] *)
Definition notSpaceAt (c : ascii) : bool :=
  negb (isWhiteSpace c || isChar "@" c).

(** [/^[^\s@]+@[^\s@]+\.[^\s@]+$/] *)
Definition EMAIL_REGEX : regex :=
  (Bol >> Plus (Cls notSpaceAt) >> Cls (isChar "@") >>
   Plus (Cls notSpaceAt) >> Cls (isChar ".") >>
   Plus (Cls notSpaceAt) >> Eol)%re.

(** The setters the schema options [trim: true] and [lowercase: true] put on
    [email]; Mongoose runs them, the last declared first, on every value
    assigned to the path. *)
Definition emailSetters (value : jsstring) : jsstring :=
  trim (toLowerCase value).

(** [new Booking({ eventId, email })] *)
Definition Booking (eventId : option ObjectId) (email : option jsstring)
  : BookingDocument :=
  mkBooking eventId (option_map emailSetters email).

(** [Event.exists({ _id })] as the hook sees it: a promise that settles with
    the identity of a matching Event, with null, or with an error. *)
Definition ExistsQuery : Type := ObjectId -> Settled (option ObjectId).

(** The query against an Event collection that holds the Events with the
    identities [events]. *)
Definition Event_exists (events : list ObjectId) : ExistsQuery :=
  fun id => Fulfilled (if existsb (N.eqb id) events then Some id else None).

(** Pre-save hook: validate email and ensure referenced event exists.  The
    result is what the hook hands to [next]. *)
Definition preSave (exists_ : ExistsQuery) (this : BookingDocument)
  : option Error :=
  if falsy (email this) || negb (test EMAIL_REGEX (ToString (email this))) then
    Some (MkError "Email must be a valid, non-empty email address.")
  else
    match eventId this with
    | None => Some (MkError "eventId is required.")
    | Some id =>
        match exists_ id with
        | Rejected error => Some error
        | Fulfilled None => Some (MkError "Referenced event does not exist.")
        | Fulfilled (Some _) => None
        end
    end.

(** The email attribute is set, not empty, and matches the pattern. *)
Definition emailValid (b : BookingDocument) : bool :=
  negb (falsy (email b)) && test EMAIL_REGEX (ToString (email b)).

End BookingModel.

(* ===================================================================== *)
(** * lib/mongodb.ts *)
(* ===================================================================== *)

Module Mongodb.

Section ConnectDB.

(** [typeof mongoose], the connected Mongoose instance. *)
Variable Mongoose : Type.

(** The promise [mongoose.connect(...)] returns is identified by the number
    of the call that made it. *)
Definition Promise : Type := nat.

Record MongooseCache : Type := mkCache {
  conn : option Mongoose;
  promise : option Promise
}.

(** The process-wide state: the cache object and, to tell connection
    attempts apart, the number of calls of [mongoose.connect] so far. *)
Record Process : Type := mkProcess {
  cached : MongooseCache;
  connects : nat
}.

(** [{ conn: null, promise: null }] *)
Definition initial : Process := mkProcess (mkCache None None) 0.

(** How connection attempt [n] settles. *)
Variable settle : Promise -> Settled Mongoose.

(** [if (!cached.promise) { cached.promise = mongoose.connect(...) }]: the
    state afterwards and the promise in [cached.promise]. *)
Definition ensurePromise (w : Process) : Process * Promise :=
  match promise (cached w) with
  | Some p => (w, p)
  | None =>
      (mkProcess (mkCache (conn (cached w)) (Some (connects w))) (S (connects w)),
       connects w)
  end.

(** Establishes a connection to MongoDB using Mongoose; caches the
    connection to reuse across function calls.  The result is the state the
    call leaves and how the promise it returns settles. *)
Definition connectDB (w : Process) : Process * Settled Mongoose :=
  match conn (cached w) with
  | Some c => (w, Fulfilled c)
  | None =>
      let '(w1, p) := ensurePromise w in
      match settle p with
      | Fulfilled c =>
          (mkProcess (mkCache (Some c) (promise (cached w1))) (connects w1),
           Fulfilled c)
      | Rejected e =>
          (mkProcess (mkCache (conn (cached w1)) None) (connects w1),
           Rejected e)
      end
  end.

(** Every promise in the cache comes from a call of [mongoose.connect]
    already made. *)
Definition fresh (w : Process) : Prop :=
  forall p, promise (cached w) = Some p -> p < connects w.

End ConnectDB.

Arguments conn {Mongoose} _.
Arguments promise {Mongoose} _.
Arguments cached {Mongoose} _.
Arguments connects {Mongoose} _.
Arguments mkCache {Mongoose} _ _.
Arguments mkProcess {Mongoose} _ _.
Arguments initial {Mongoose}.
Arguments ensurePromise {Mongoose} w.
Arguments connectDB {Mongoose} settle w.
Arguments fresh {Mongoose} w.

(** Attempt 0 is refused, the later ones connect. *)
Definition refusedOnce (p : Promise) : Settled nat :=
  match p with
  | O => Rejected (MkError "connect ECONNREFUSED")
  | S _ => Fulfilled 1
  end.

End Mongodb.

(* ===================================================================== *)
(** * The specification's wording of the slug *)
(* ===================================================================== *)

Module Spec.

Definition alphanumeric (c : ascii) : bool :=
  range "a" "z" c || range "A" "Z" c || range "0" "9" c.

(** Alphanumeric characters, spaces and hyphens stay; the others go. *)
Definition kept (c : ascii) : bool :=
  alphanumeric c || isWhiteSpace c || isChar "-" c.

(** Every run of characters in [p] becomes the single character [r];
    [inRun] tells that the character before was in [p]. *)
Fixpoint collapse (p : ascii -> bool) (r : ascii) (inRun : bool) (s : jsstring)
  : jsstring :=
  match s with
  | [] => []
  | c :: s' =>
      if p c then
        if inRun then collapse p r true s' else r :: collapse p r true s'
      else c :: collapse p r false s'
  end.

(** The title trimmed, lowercased, stripped of what is not kept, white space
    runs turned into one hyphen each, repeated hyphens into one. *)
Definition slug (title : jsstring) : jsstring :=
  collapse (isChar "-") "-" false
    (collapse isWhiteSpace "-" false
       (filter kept (toLowerCase (trim title)))).

End Spec.

(* ===================================================================== *)
(** * Reading the outcome of the hooks and of a series of calls *)
(* ===================================================================== *)

Module Outcome.

(** The first name in [requiredStringFields] whose attribute does not pass
    the loop. *)
Definition firstMissing (d : EventDocument) : option Field :=
  find (fun f => negb (present (get f d))) requiredStringFields.

(** The errors of the date and of the time checks. *)
Definition invalidDate : Error :=
  MkError "Invalid date format. Expected a parsable date string.".

Definition invalidTime : Error :=
  MkError "Invalid time format. Expected HH:MM in 24-hour format.".

(** What the Event hook hands to [next], check by check in the order of the
    source: the required attributes, the items of the agenda and of the
    tags, the date, the time. *)
Definition verdict (E : Engine) (d : EventDocument) : option Error :=
  match firstMissing d with
  | Some f => Some (requiredError f)
  | None =>
      if stringArrays d then
        match parsedDate E d with
        | None => Some invalidDate
        | Some _ =>
            match timeMatch d with
            | None => Some invalidTime
            | Some _ => None
            end
        end
      else Some typeError
  end.

(** No two neighbours of the string are both in the class [p]. *)
Fixpoint noRepeat (p : ascii -> bool) (s : jsstring) : bool :=
  match s with
  | a :: s' =>
      match s' with
      | b :: _ => negb (p a && p b) && noRepeat p s'
      | [] => true
      end
  | [] => true
  end.

(** The date part of [toISOString]: year, month and day of the month. *)
Definition datePortion (t : Z) : jsstring :=
  yearString (YearFromTime t) ++ js "-" ++ pad 2 (MonthFromTime t + 1) ++
  js "-" ++ pad 2 (DateFromTime t).

(** The characters of a printed date: digits, the hyphen and the plus sign. *)
Definition dateChar (c : ascii) : bool :=
  isDigit c || isChar "-" c || isChar "+" c.

(** The time values a Date can hold. *)
Definition inTimeRange (t : Z) : Prop := (Z.abs t <= 8640000000000000)%Z.

(** [n] calls of [connectDB], one after the other, each awaited before the
    next: the state they leave and how they settled, first call first. *)
Fixpoint calls {Mongoose : Type} (settle : Mongodb.Promise -> Settled Mongoose)
  (n : nat) (w : Mongodb.Process Mongoose)
  : Mongodb.Process Mongoose * list (Settled Mongoose) :=
  match n with
  | O => (w, [])
  | S n' =>
      let '(w1, r) := Mongodb.connectDB settle w in
      let '(w2, rs) := calls settle n' w1 in
      (w2, r :: rs)
  end.

(** Loading [lib/mongodb.ts]: the check of [MONGODB_URI], then
    [cached = global._mongooseCache || { conn: null, promise: null }] and
    the store of [cached] in [global._mongooseCache].  The cache object is
    shared between the module and [global], so the state of the process
    stands for both; [global] is the state an earlier load has left, if
    there was one.  The result is the error thrown, or the state behind the
    load. *)
Definition loadModule {Mongoose : Type} (MONGODB_URI : option jsstring)
  (global : option (Mongodb.Process Mongoose))
  : Error + Mongodb.Process Mongoose :=
  if falsy MONGODB_URI then
    inl (MkError
      "Please define the MONGODB_URI environment variable inside .env.local")
  else
    inr (match global with
         | Some w => w
         | None => Mongodb.initial
         end).

End Outcome.

Import Outcome.

(* ===================================================================== *)
(** * Facts about the built-ins *)
(* ===================================================================== *)

Section Lists.

Context {A : Type} (p : A -> bool).

Lemma takeWhile_dropWhile (l : list A) : takeWhile p l ++ dropWhile p l = l.
Proof.
  induction l as [|x l IH]; simpl; [reflexivity|].
  destruct (p x); simpl; [now rewrite IH | reflexivity].
Qed.

Lemma takeWhile_all (l : list A) : Forall (fun x => p x = true) (takeWhile p l).
Proof.
  induction l as [|x l IH]; simpl; [constructor|].
  destruct (p x) eqn:E; constructor; assumption.
Qed.

Lemma dropWhile_head (l : list A) x l' :
  dropWhile p l = x :: l' -> p x = false.
Proof.
  induction l as [|y l IH]; simpl; [discriminate|].
  destruct (p y) eqn:E; [exact IH|].
  intros H; injection H as <- _. exact E.
Qed.

Lemma dropWhile_none (l : list A) :
  Forall (fun x => p x = false) l -> dropWhile p l = l.
Proof.
  destruct 1 as [|x l Hx _]; simpl; [reflexivity|]. now rewrite Hx.
Qed.

Lemma dropWhile_idem (l : list A) : dropWhile p (dropWhile p l) = dropWhile p l.
Proof.
  induction l as [|x l IH]; simpl; [reflexivity|].
  destruct (p x) eqn:E; [exact IH|]. simpl. now rewrite E.
Qed.

Lemma dropWhile_length (l : list A) : length (dropWhile p l) <= length l.
Proof.
  induction l as [|x l IH]; simpl; [lia|]. destruct (p x); simpl; lia.
Qed.

Lemma takeWhile_nil_dropWhile (l : list A) :
  takeWhile p l = [] -> dropWhile p l = l.
Proof.
  destruct l as [|x l]; simpl; [reflexivity|]. destruct (p x); [discriminate|reflexivity].
Qed.

Lemma filter_all (l : list A) :
  Forall (fun x => p x = true) l -> filter p l = l.
Proof.
  induction 1 as [|x l Hx _ IH]; simpl; [reflexivity|]. now rewrite Hx, IH.
Qed.

End Lists.

(** ** The fuel of the matcher *)

Lemma flat_map_ext_in {A B} (f g : A -> list B) (l : list A) :
  (forall a, In a l -> f a = g a) -> flat_map f l = flat_map g l.
Proof.
  induction l as [|a l IH]; intros H; simpl; [reflexivity|].
  rewrite (H a (or_introl eq_refl)), IH; [reflexivity|].
  intros b Hb. apply H. now right.
Qed.

Lemma iterate_fuel (step : nat -> jsstring -> captures -> list outcome) :
  prefixes step ->
  forall fuel fuel' pos s caps,
    length s < fuel -> length s < fuel' ->
    iterate step fuel pos s caps = iterate step fuel' pos s caps.
Proof.
  intros Hstep. induction fuel as [|fuel IH]; intros fuel' pos s caps H1 H2; [lia|].
  destruct fuel' as [|fuel']; [lia|]. cbn [iterate].
  apply flat_map_ext_in. intros [[m1 s1] c1] Hin.
  apply Hstep in Hin. destruct m1 as [|x m1]; [reflexivity|].
  f_equal. f_equal. apply IH; subst s; rewrite length_app in *; simpl in *; lia.
Qed.

Lemma iterate_prefixes (step : nat -> jsstring -> captures -> list outcome) :
  prefixes step -> forall fuel, prefixes (iterate step fuel).
Proof.
  intros Hstep. induction fuel as [|fuel IH]; intros pos s caps m s' c Hin;
    [destruct Hin|].
  cbn [iterate] in Hin. apply in_flat_map in Hin.
  destruct Hin as ([[m1 s1] c1] & Hin1 & Hin).
  pose proof (Hstep _ _ _ _ _ _ Hin1) as ->.
  apply in_app_or in Hin. destruct Hin as [Hin | [Heq | []]].
  - destruct m1 as [|x m1]; [destruct Hin|].
    apply in_map_iff in Hin. destruct Hin as ([[m2 s2] c2] & Heq & Hin2).
    apply IH in Hin2. unfold consumed_more in Heq. injection Heq as <- <- <-.
    subst s1. now rewrite app_assoc.
  - now injection Heq as <- <- <-.
Qed.

(** Every way the matcher matches consumes a prefix of the input. *)
Lemma run_prefixes (r : regex) : prefixes (run r).
Proof.
  induction r as [| |p|r1 IH1 r2 IH2|r1 IH1 r2 IH2|r1 IH1|n r1 IH1];
    intros pos s caps m s' c Hin; cbn [run] in Hin.
  - destruct (pos =? 0); [|destruct Hin].
    destruct Hin as [Heq | []]. now injection Heq as <- <- <-.
  - destruct s; [|destruct Hin].
    destruct Hin as [Heq | []]. now injection Heq as <- <- <-.
  - destruct s as [|x s]; [destruct Hin|]. destruct (p x); [|destruct Hin].
    destruct Hin as [Heq | []]. now injection Heq as <- <- <-.
  - apply in_flat_map in Hin. destruct Hin as ([[m1 s1] c1] & Hin1 & Hin).
    apply in_map_iff in Hin. destruct Hin as ([[m2 s2] c2] & Heq & Hin2).
    apply IH1 in Hin1. apply IH2 in Hin2.
    unfold consumed_more in Heq. injection Heq as <- <- <-.
    subst s s1. now rewrite app_assoc.
  - apply in_app_or in Hin. destruct Hin as [Hin | Hin]; [eapply IH1 | eapply IH2]; eauto.
  - eapply iterate_prefixes; eauto.
  - apply in_map_iff in Hin. destruct Hin as ([[m2 s2] c2] & Heq & Hin2).
    injection Heq as <- <- <-. eapply IH1; eauto.
Qed.

(** The fuel [run] gives to the iterations of [r+] is enough: more fuel
    finds the same matches. *)
Lemma run_plus_fuel (r : regex) (k : nat) pos s caps :
  run (Plus r) pos s caps = iterate (run r) (S (length s) + k) pos s caps.
Proof. cbn [run]. apply iterate_fuel; [apply run_prefixes | lia | lia]. Qed.

(** ** The matcher on a character class and on a run of a class *)

Section Classes.

Variable p : ascii -> bool.

Lemma search_step (r : regex) (pos : nat) (s : jsstring) :
  search r pos s =
  match hd_error (run r pos s []) with
  | Some (m, s', c) => Some (mkMatch pos m s' c)
  | None => match s with [] => None | _ :: s' => search r (S pos) s' end
  end.
Proof.
  destruct s; simpl; destruct (run r pos _ []) as [|[[m s'] c] l]; reflexivity.
Qed.

Lemma iterate_cls_head (fuel : nat) :
  forall pos s caps, length s < fuel ->
  hd_error (iterate (run (Cls p)) fuel pos s caps) =
  match takeWhile p s with
  | [] => None
  | m => Some (m, dropWhile p s, caps)
  end.
Proof.
  set (step := run (Cls p)).
  assert (Hstep : forall pos s caps, step pos s caps =
            match s with
            | c :: s' => if p c then [([c], s', caps)] else []
            | [] => []
            end) by reflexivity.
  clearbody step.
  induction fuel as [|fuel IH]; intros pos s caps Hlen; [lia|].
  cbn [iterate]. rewrite Hstep.
  destruct s as [|c s]; [reflexivity|].
  simpl in Hlen. cbn [takeWhile dropWhile]. destruct (p c) eqn:Hc; [|reflexivity].
  cbn [flat_map length]. rewrite app_nil_r.
  specialize (IH (pos + 1) s caps ltac:(lia)).
  destruct (iterate step fuel (pos + 1) s caps) as [|[[m s1] c1] l];
    cbn [map app hd_error consumed_more] in *.
  - destruct (takeWhile p s) eqn:Ht; [|discriminate].
    now rewrite (takeWhile_nil_dropWhile p s Ht).
  - destruct (takeWhile p s) eqn:Ht; [discriminate|].
    injection IH as -> -> ->. reflexivity.
Qed.

Lemma run_plus_cls_head (pos : nat) (s : jsstring) (caps : captures) :
  hd_error (run (Plus (Cls p)) pos s caps) =
  match takeWhile p s with
  | [] => None
  | m => Some (m, dropWhile p s, caps)
  end.
Proof. exact (iterate_cls_head (S (length s)) pos s caps (Nat.lt_succ_diag_r _)). Qed.

Lemma search_cls (s : jsstring) :
  forall pos,
  search (Cls p) pos s =
  match dropWhile (non p) s with
  | [] => None
  | c :: rest =>
      Some (mkMatch (pos + length (takeWhile (non p) s)) [c] rest [])
  end.
Proof.
  induction s as [|c s IH]; intros pos; [reflexivity|].
  simpl. unfold non at 1 3. destruct (p c) eqn:Hc; simpl.
  - now rewrite Nat.add_0_r.
  - rewrite IH. destruct (dropWhile (non p) s); [reflexivity|].
    now rewrite Nat.add_succ_r.
Qed.

Lemma search_plus_cls (s : jsstring) :
  forall pos,
  search (Plus (Cls p)) pos s =
  match dropWhile (non p) s with
  | [] => None
  | c :: rest =>
      Some (mkMatch (pos + length (takeWhile (non p) s))
                    (c :: takeWhile p rest) (dropWhile p rest) [])
  end.
Proof.
  induction s as [|c s IH]; intros pos; [reflexivity|].
  rewrite search_step, run_plus_cls_head.
  simpl. unfold non at 1 3. destruct (p c) eqn:Hc; simpl.
  - now rewrite Nat.add_0_r.
  - rewrite IH. destruct (dropWhile (non p) s); [reflexivity|].
    now rewrite Nat.add_succ_r.
Qed.

Lemma firstn_takeWhile (s : jsstring) (pos : nat) :
  firstn (pos + length (takeWhile (non p) s) - pos) s = takeWhile (non p) s.
Proof.
  replace (pos + length (takeWhile (non p) s) - pos) with (length (takeWhile (non p) s) + 0) by lia.
  rewrite <- (takeWhile_dropWhile (non p) s) at 2.
  rewrite firstn_app_2. simpl. apply app_nil_r.
Qed.

Lemma filter_np_takeWhile (s : jsstring) :
  filter (non p) (takeWhile (non p) s) = takeWhile (non p) s.
Proof. apply filter_all, takeWhile_all. Qed.

(** Replacing every character of a class by nothing filters the class out. *)
Lemma replace_from_cls (fuel : nat) :
  forall s pos, length s < fuel ->
  replace_from fuel (Cls p) [] pos s = filter (non p) s.
Proof.
  induction fuel as [|fuel IH]; intros s pos Hlen; [lia|].
  simpl. rewrite search_cls.
  pose proof (takeWhile_dropWhile (non p) s) as Hs.
  destruct (dropWhile (non p) s) as [|c rest] eqn:Hd.
  - rewrite app_nil_r in Hs. rewrite <- Hs at 1. rewrite <- Hs at 2.
    symmetry. apply filter_np_takeWhile.
  - cbn [index matched after]. rewrite firstn_takeWhile.
    pose proof (dropWhile_head (non p) s c rest Hd) as Hc.
    pose proof (filter_np_takeWhile s) as Hpre.
    set (pre := takeWhile (non p) s) in *. clearbody pre. subst s.
    rewrite length_app in Hlen. simpl in Hlen.
    rewrite IH by lia.
    rewrite filter_app, Hpre. simpl. now rewrite Hc.
Qed.

Lemma replace_cls (s : jsstring) :
  replace (Cls p) [] s = filter (non p) s.
Proof. apply replace_from_cls. lia. Qed.

Variable r : ascii.

Lemma collapse_skip_run (s : jsstring) :
  Spec.collapse p r true s = Spec.collapse p r true (dropWhile p s).
Proof.
  induction s as [|c s IH]; simpl; [reflexivity|].
  destruct (p c) eqn:Hc; [exact IH|]. simpl. now rewrite Hc.
Qed.

Lemma collapse_flag_dropWhile (s : jsstring) :
  Spec.collapse p r true (dropWhile p s) = Spec.collapse p r false (dropWhile p s).
Proof.
  destruct (dropWhile p s) as [|c rest] eqn:Hd; [reflexivity|].
  simpl. now rewrite (dropWhile_head p s c rest Hd).
Qed.

Lemma collapse_np_prefix (s : jsstring) :
  forall b, Spec.collapse p r b s =
  takeWhile (non p) s ++ Spec.collapse p r b (dropWhile (non p) s)
  \/ Spec.collapse p r b s =
     takeWhile (non p) s ++ Spec.collapse p r false (dropWhile (non p) s).
Proof.
  induction s as [|c s IH]; intros b; simpl; [now left|].
  unfold non at 1 3 5 7. destruct (p c) eqn:Hc; simpl.
  - left. now rewrite Hc.
  - right. destruct (IH false) as [-> | ->]; reflexivity.
Qed.

Lemma collapse_false_prefix (s : jsstring) :
  Spec.collapse p r false s =
  takeWhile (non p) s ++ Spec.collapse p r false (dropWhile (non p) s).
Proof. destruct (collapse_np_prefix s false); assumption. Qed.

(** Replacing every run of a class by one character collapses the runs. *)
Lemma replace_from_plus_cls (fuel : nat) :
  forall s pos, length s < fuel ->
  replace_from fuel (Plus (Cls p)) [r] pos s = Spec.collapse p r false s.
Proof.
  induction fuel as [|fuel IH]; intros s pos Hlen; [lia|].
  simpl replace_from. rewrite search_plus_cls.
  rewrite (collapse_false_prefix s).
  pose proof (takeWhile_dropWhile (non p) s) as Hs.
  destruct (dropWhile (non p) s) as [|c rest] eqn:Hd.
  - simpl. exact (eq_sym Hs).
  - cbn [index matched after]. rewrite firstn_takeWhile.
    pose proof (dropWhile_head (non p) s c rest Hd) as Hc.
    unfold non in Hc. apply negb_false_iff in Hc.
    simpl. rewrite Hc. f_equal. f_equal.
    pose proof (dropWhile_length p rest).
    set (pre := takeWhile (non p) s) in *. clearbody pre. subst s.
    rewrite length_app in Hlen. simpl in Hlen.
    rewrite IH by lia.
    now rewrite collapse_skip_run, collapse_flag_dropWhile.
Qed.

Lemma replace_plus_cls (s : jsstring) :
  replace (Plus (Cls p)) [r] s = Spec.collapse p r false s.
Proof. apply replace_from_plus_cls. lia. Qed.

End Classes.

(** ** The patterns on examples *)

Example timeRegex_examples :
  map (fun s => test timeRegex (js s))
      ["09:05"; "9:05"; "9:5"; "24:00"; "23:59"; "19:60"; "12:30x"]%string
  = [true; false; false; false; true; false; false].
Proof. reflexivity. Qed.

(** The last two need the matcher to give back characters: the domain
    first takes all that is left, then returns what the dot and the final
    part need. *)
Example EMAIL_REGEX_examples :
  map (fun s => test BookingModel.EMAIL_REGEX (js s))
      ["ada@example.org"; "ada@example"; "ada lovelace@example.org";
       "@example.org"; "ada@@example.org"; "a@b.c.d"; "a@b..c"]%string
  = [true; false; false; false; false; true; true].
Proof. reflexivity. Qed.

Example generateSlug_examples :
  map (fun s => generateSlug (js s))
      ["Hello, World!"; "  --a  --  b-- "; "a_b"; " - "]%string
  = map js ["hello-world"; "-a-b-"; "ab"; "-"]%string.
Proof. reflexivity. Qed.

Example toISOString_examples :
  map (fun s => option_map toISOString (Date_getTime utcEngine (js s)))
      ["2024-03-05T10:00:00.123+05:30"; "2024-02-30"; "1700-02-29";
       "-271821-04-20T00:00:00Z"; "-271821-04-19T00:00:00Z"]%string
  = [Some (js "2024-03-05T04:30:00.123Z"); None; None;
     Some (js "-271821-04-20T00:00:00.000Z"); None].
Proof. reflexivity. Qed.

(** ** The time pattern *)

Lemma isChar_eq (a c : ascii) : isChar a c = true -> c = a.
Proof.
  unfold isChar, code. intros H. apply N.eqb_eq in H.
  rewrite <- (ascii_N_embedding c), <- (ascii_N_embedding a). now rewrite H.
Qed.

Lemma search_bol (r : regex) (s : jsstring) :
  forall pos, search (Cat Bol r) (S pos) s = None.
Proof. induction s as [|c s IH]; intros pos; simpl; [reflexivity | apply IH]. Qed.

(** A pattern that starts with [^] matches at index 0 or nowhere. *)
Lemma exec_anchored (r : regex) (s : jsstring) :
  exec (Cat Bol r) s =
  match hd_error (run (Cat Bol r) 0 s []) with
  | Some (m, s', c) => Some (mkMatch 0 m s' c)
  | None => None
  end.
Proof.
  unfold exec. rewrite search_step.
  destruct (hd_error (run (Cat Bol r) 0 s [])) as [[[m s'] c]|]; [reflexivity|].
  destruct s; [reflexivity | apply search_bol].
Qed.

Ltac run_unfold :=
  cbv [run timeRegex flat_map map app consumed_more hd_error Datatypes.length
       Nat.eqb Nat.add isHHMM andb orb].

Ltac run_cases :=
  run_unfold;
  repeat match goal with
         | |- context [if ?b then _ else _] => destruct b eqn:?; run_unfold
         end.

Lemma exec_timeRegex (s : jsstring) :
  exec timeRegex s =
  if isHHMM s
  then Some (mkMatch 0 s [] [(2, skipn 3 s); (1, firstn 2 s)])
  else None.
Proof.
  unfold timeRegex at 1. rewrite exec_anchored. fold timeRegex.
  destruct s as [|h1 [|h2 [|c [|m1 [|m2 [|x s]]]]]]; run_cases;
    try reflexivity; try discriminate.
  all: match goal with H : isChar ":" _ = true |- _ => apply isChar_eq in H; subst end.
  all: reflexivity.
Qed.

(** ** Characters *)

Ltac each_char c := destruct c as [[] [] [] [] [] [] [] []].

Lemma lower_idem (c : ascii) : lower (lower c) = lower c.
Proof. each_char c; reflexivity. Qed.

Lemma isWhiteSpace_lower (c : ascii) : isWhiteSpace (lower c) = isWhiteSpace c.
Proof. each_char c; reflexivity. Qed.

Lemma kept_lower (c : ascii) :
  negb (notSlugChar (lower c)) = Spec.kept (lower c).
Proof. each_char c; reflexivity. Qed.

Lemma slugChar_cases (c : ascii) :
  negb (notSlugChar c) = slugChar c || isWhiteSpace c.
Proof. each_char c; reflexivity. Qed.

Lemma slugChar_lower (c : ascii) : slugChar c = true -> lower c = c.
Proof. each_char c; (reflexivity || discriminate). Qed.

Lemma slugChar_not_space (c : ascii) : slugChar c = true -> isWhiteSpace c = false.
Proof. each_char c; (reflexivity || discriminate). Qed.

(** ** trim and toLowerCase *)

Lemma dropWhile_snoc {A} (p : A -> bool) (l : list A) (x : A) :
  p x = false -> dropWhile p (l ++ [x]) = dropWhile p l ++ [x].
Proof.
  intros Hx. induction l as [|y l IH]; simpl; [now rewrite Hx|].
  destruct (p y); [exact IH | reflexivity].
Qed.

Lemma trimStart_head (s : jsstring) c s' :
  trimStart s = c :: s' -> isWhiteSpace c = false.
Proof. apply dropWhile_head. Qed.

Lemma trimEnd_idem (s : jsstring) : trimEnd (trimEnd s) = trimEnd s.
Proof. unfold trimEnd. now rewrite rev_involutive, dropWhile_idem. Qed.

Lemma trimEnd_cons (c : ascii) (s : jsstring) :
  isWhiteSpace c = false -> trimEnd (c :: s) = c :: trimEnd s.
Proof.
  intros Hc. unfold trimEnd. simpl.
  rewrite (dropWhile_snoc _ _ _ Hc), rev_app_distr. reflexivity.
Qed.

Lemma trimStart_trim (s : jsstring) : trimStart (trim s) = trim s.
Proof.
  unfold trim. destruct (trimStart s) as [|c u] eqn:Hu; [reflexivity|].
  pose proof (trimStart_head s c u Hu) as Hc.
  rewrite (trimEnd_cons c u Hc). unfold trimStart. simpl. now rewrite Hc.
Qed.

Lemma trim_idem (s : jsstring) : trim (trim s) = trim s.
Proof.
  unfold trim at 1. rewrite trimStart_trim. unfold trim. apply trimEnd_idem.
Qed.

Lemma trim_no_space (s : jsstring) :
  Forall (fun c => isWhiteSpace c = false) s -> trim s = s.
Proof.
  intros H. unfold trim, trimStart, trimEnd.
  rewrite (dropWhile_none _ s H).
  rewrite dropWhile_none; [apply rev_involutive|].
  apply Forall_rev, H.
Qed.

Lemma dropWhile_toLowerCase (s : jsstring) :
  dropWhile isWhiteSpace (toLowerCase s) = toLowerCase (dropWhile isWhiteSpace s).
Proof.
  induction s as [|c s IH]; simpl; [reflexivity|].
  rewrite isWhiteSpace_lower. destruct (isWhiteSpace c); [exact IH | reflexivity].
Qed.

Lemma trim_toLowerCase (s : jsstring) :
  trim (toLowerCase s) = toLowerCase (trim s).
Proof.
  assert (Hrev : forall x, rev (toLowerCase x) = toLowerCase (rev x))
    by (intros x; unfold toLowerCase; symmetry; apply map_rev).
  unfold trim, trimStart, trimEnd.
  now rewrite dropWhile_toLowerCase, Hrev, dropWhile_toLowerCase, Hrev.
Qed.

Lemma toLowerCase_idem (s : jsstring) :
  toLowerCase (toLowerCase s) = toLowerCase s.
Proof.
  unfold toLowerCase. rewrite map_map. apply map_ext, lower_idem.
Qed.

(** ** The slug, stage by stage *)

Lemma filter_toLowerCase_kept (s : jsstring) :
  filter (fun c => negb (notSlugChar c)) (toLowerCase s) =
  filter Spec.kept (toLowerCase s).
Proof.
  induction s as [|c s IH]; simpl; [reflexivity|].
  now rewrite kept_lower, IH.
Qed.

Lemma generateSlug_stages (title : jsstring) :
  generateSlug title =
  Spec.collapse (isChar "-") "-" false
    (Spec.collapse isWhiteSpace "-" false
       (filter (fun c => negb (notSlugChar c)) (toLowerCase (trim title)))).
Proof.
  unfold generateSlug.
  change (js "-") with ["-"%char]. change (js "") with (@nil ascii).
  now rewrite !replace_plus_cls, replace_cls.
Qed.

Section Collapse.

Variables (p : ascii -> bool) (r : ascii).

Lemma collapse_idem (s : jsstring) :
  p r = true ->
  forall b, Spec.collapse p r b (Spec.collapse p r b s) = Spec.collapse p r b s.
Proof.
  intros Hr. induction s as [|c s IH]; intros b; simpl; [reflexivity|].
  destruct (p c) eqn:Hc.
  - destruct b; simpl; [apply IH|]. rewrite Hr. f_equal. apply IH.
  - simpl. rewrite Hc. f_equal. apply IH.
Qed.

Lemma collapse_none (s : jsstring) :
  Forall (fun c => p c = false) s ->
  forall b, Spec.collapse p r b s = s.
Proof.
  induction 1 as [|c s Hc _ IH]; intros b; simpl; [reflexivity|].
  rewrite Hc. f_equal. apply IH.
Qed.

Lemma collapse_Forall (q : ascii -> bool) (s : jsstring) :
  q r = true ->
  Forall (fun c => q c || p c = true) s ->
  forall b, Forall (fun c => q c = true) (Spec.collapse p r b s).
Proof.
  intros Hr. induction 1 as [|c s Hc _ IH]; intros b; simpl; [constructor|].
  destruct (p c) eqn:Hp.
  - destruct b; [apply IH | constructor; [exact Hr | apply IH]].
  - constructor; [|apply IH]. now rewrite orb_false_r in Hc.
Qed.

End Collapse.

Lemma Forall_filter {A} (f : A -> bool) (l : list A) :
  Forall (fun x => f x = true) (filter f l).
Proof.
  induction l as [|x l IH]; simpl; [constructor|].
  destruct (f x) eqn:E; [constructor|]; assumption.
Qed.

(** A slug is made of lower-case letters, digits and hyphens. *)
Lemma generateSlug_chars (title : jsstring) :
  Forall (fun c => slugChar c = true) (generateSlug title).
Proof.
  rewrite generateSlug_stages.
  apply collapse_Forall; [reflexivity|].
  eapply Forall_impl; [|apply (collapse_Forall isWhiteSpace "-" slugChar)].
  - intros c Hc. simpl in Hc. now rewrite Hc.
  - reflexivity.
  - eapply Forall_impl; [|apply Forall_filter].
    intros c Hc. simpl in Hc. now rewrite <- slugChar_cases.
Qed.

Lemma map_lower_fixed (s : jsstring) :
  Forall (fun c => slugChar c = true) s -> toLowerCase s = s.
Proof.
  induction 1 as [|c s Hc _ IH]; simpl; [reflexivity|].
  now rewrite (slugChar_lower c Hc), IH.
Qed.

Lemma generateSlug_trim (title : jsstring) :
  generateSlug (trim title) = generateSlug title.
Proof. unfold generateSlug. now rewrite trim_idem. Qed.

Lemma generateSlug_idempotent (t : jsstring) :
  generateSlug (generateSlug t) = generateSlug t.
Proof.
  pose proof (generateSlug_chars t) as Hch.
  assert (Hns : Forall (fun c => isWhiteSpace c = false) (generateSlug t)).
  { eapply Forall_impl; [|exact Hch]. apply slugChar_not_space. }
  rewrite (generateSlug_stages (generateSlug t)).
  rewrite (trim_no_space _ Hns), (map_lower_fixed _ Hch).
  rewrite filter_all.
  2:{ eapply Forall_impl; [|exact Hch]. intros c Hc. simpl in Hc.
      rewrite slugChar_cases, Hc. reflexivity. }
  rewrite (collapse_none isWhiteSpace "-" _ Hns).
  rewrite (generateSlug_stages t) at 1 2.
  apply collapse_idem. reflexivity.
Qed.

(* ===================================================================== *)
(** * The Event pre-save hook *)
(* ===================================================================== *)

Lemma sameString_refl (a : jsstring) : sameString a a = true.
Proof.
  induction a as [|x a IH]; simpl; [reflexivity|].
  now rewrite Ascii.eqb_refl, IH.
Qed.

Lemma sameValue_refl (a : option jsstring) : sameValue a a = true.
Proof. destruct a; simpl; [apply sameString_refl | reflexivity]. Qed.

Lemma sameItems_refl (a : Items) : sameItems a a = true.
Proof.
  induction a as [|x a IH]; simpl; [reflexivity|].
  now rewrite sameValue_refl, IH.
Qed.

Lemma sameArray_refl (a : option Items) : sameArray a a = true.
Proof. destruct a; simpl; [apply sameItems_refl | reflexivity]. Qed.

Lemma sameString_eq (a b : jsstring) : sameString a b = true <-> a = b.
Proof.
  split; [|intros ->; apply sameString_refl].
  revert b. induction a as [|x a IH]; intros [|y b]; simpl; try discriminate.
  - reflexivity.
  - intros H. apply andb_prop in H. destruct H as [Hx Hr].
    apply Ascii.eqb_eq in Hx. now rewrite Hx, (IH b Hr).
Qed.

(** An assignment marks its own path when it changes the value, and no
    other. *)
Lemma assigned_at (path : string) (changed : bool) (f : string -> bool) (p : string) :
  assigned path changed f p = (changed && (p =? path)%string) || f p.
Proof. unfold assigned. now destruct changed. Qed.

Lemma assigned_same (path : string) (f : string -> bool) :
  assigned path false f = f.
Proof. reflexivity. Qed.

(** [map] with [trim] goes through exactly on the arrays of strings. *)
Lemma trimItems_Some (items items' : Items) :
  trimItems items = Some items' ->
  items' = map (option_map trim) items /\ isStrings (Some items) = true.
Proof.
  revert items'. induction items as [|[item|] rest IH]; simpl; intros items' H.
  - injection H as <-. now split.
  - destruct (trimItems rest) as [rest'|]; [|discriminate].
    injection H as <-. destruct (IH rest' eq_refl) as [-> Hs]. now split.
  - discriminate.
Qed.

Lemma trimItems_None (items : Items) :
  trimItems items = None -> isStrings (Some items) = false.
Proof.
  induction items as [|[item|] rest IH]; simpl; intros H.
  - discriminate.
  - destruct (trimItems rest) as [rest'|]; [discriminate|]. now apply IH.
  - reflexivity.
Qed.

Lemma trimItems_strings (items : Items) :
  isStrings (Some items) = true ->
  trimItems items = Some (map (option_map trim) items).
Proof.
  intros H. destruct (trimItems items) as [items'|] eqn:Ht.
  - now destruct (trimItems_Some _ _ Ht) as [-> _].
  - apply trimItems_None in Ht. congruence.
Qed.

Section HookCases.

Variable E : Engine.

Ltac hook_unfold :=
  cbv [preSave preSaveBody forEach requiredStringFields bind requireField this
       next_error assign ret get set set_slug set_agenda set_tags normalizeDate
       normalizeTime updateSlug trimAgenda trimTags String_
       title slug description overview image venue location date time mode
       audience agenda organizer tags isModified
       allPresent forallb present parsedDate timeMatch trimmed option_map
       normalized tracked slugDue trimmedItems andb negb].

Ltac hook_failed :=
  split; [auto | reflexivity].

Ltac hook_require x :=
  destruct x as [x|];
  [destruct (Datatypes.length (trim x) =? 0) eqn:?|];
  hook_unfold; [hook_failed | | hook_failed].

(** The items of an array attribute: no array, an array with an item that
    is no string, or an array of strings, whose trimmed form is then
    known. *)
Ltac hook_items x H :=
  destruct x as [x|];
  [destruct (trimItems x) as [?|] eqn:H;
   [apply trimItems_Some in H; destruct H as [-> H]|
    apply trimItems_None in H]|];
  hook_unfold.

Ltac hook_no_array :=
  split; [right; left; unfold stringArrays; cbn [agenda tags];
          repeat match goal with
                 | H : isStrings _ = false |- _ => rewrite H; clear H
                 end;
          rewrite ?andb_false_r; reflexivity
         | reflexivity].

(** The hook, case by case: when it succeeds every required attribute was
    present, the agenda and the tags were arrays of strings, the date
    parsed and the time matched, and the document is the normalized one;
    when it fails one of these did not hold and the slug is as it was. *)
Lemma preSave_cases (d : EventDocument) :
  match preSave E d with
  | (d', None) =>
      allPresent d = true /\ stringArrays d = true /\
      exists t m, parsedDate E d = Some t /\ timeMatch d = Some m /\
                  d' = normalized d t m
  | (d', Some e) =>
      (allPresent d = false \/ stringArrays d = false \/
       parsedDate E d = None \/ timeMatch d = None) /\
      slug d' = slug d
  end.
Proof.
  destruct d as [ti sl de ov im ve lo da tm mo au ag og tg md].
  hook_unfold.
  hook_require ti. hook_require de. hook_require ov. hook_require im.
  hook_require ve. hook_require lo. hook_require da. hook_require tm.
  hook_require mo. hook_require au. hook_require og.
  hook_items ag Hag; [|hook_no_array|hook_no_array].
  hook_items tg Htg; [|hook_no_array|hook_no_array].
  destruct (Date_getTime E (trim da)) as [t|]; [|hook_failed].
  destruct (exec timeRegex (trim (trim tm))) as [m|]; [|hook_failed].
  hook_unfold.
  match goal with
  | |- context [if ?c || falsy sl then _ else _] =>
      destruct (c || falsy sl) eqn:Hdue
  end; hook_unfold;
    (split; [reflexivity|]);
    (split; [unfold stringArrays; cbn [agenda tags]; now rewrite Hag, Htg|]);
    exists t, m; repeat split;
    repeat match goal with
           | |- context [if ?c || falsy sl then _ else _] =>
               first [ replace (c || falsy sl) with true
                         by (symmetry; exact Hdue)
                     | replace (c || falsy sl) with false
                         by (symmetry; exact Hdue) ]
           end;
    reflexivity.
Qed.

End HookCases.

Section EventHook.

Variable E : Engine.

Lemma preSave_ok (d : EventDocument) :
  snd (preSave E d) = None ->
  exists t m, allPresent d = true /\ parsedDate E d = Some t /\
              timeMatch d = Some m /\ fst (preSave E d) = normalized d t m.
Proof.
  pose proof (preSave_cases E d) as H.
  destruct (preSave E d) as [d' [e|]]; simpl; [discriminate|].
  intros _. destruct H as (Hp & _ & t & m & Ht & Hm & ->). now exists t, m.
Qed.

Lemma preSave_ok_arrays (d : EventDocument) :
  snd (preSave E d) = None -> stringArrays d = true.
Proof.
  pose proof (preSave_cases E d) as H.
  destruct (preSave E d) as [d' [e|]]; simpl; [discriminate|].
  intros _. now destruct H as (_ & Ha & _).
Qed.

Lemma preSave_ok_intro (d : EventDocument) t m :
  allPresent d = true -> stringArrays d = true ->
  parsedDate E d = Some t -> timeMatch d = Some m ->
  preSave E d = (normalized d t m, None).
Proof.
  intros Hp Ha Ht Hm. pose proof (preSave_cases E d) as H.
  destruct (preSave E d) as [d' [e|]].
  - destruct H as ([H | [H | [H | H]]] & _); congruence.
  - destruct H as (_ & _ & t' & m' & Ht' & Hm' & ->). congruence.
Qed.

Lemma preSave_failed (d : EventDocument) :
  snd (preSave E d) <> None ->
  (allPresent d = false \/ stringArrays d = false \/
   parsedDate E d = None \/ timeMatch d = None) /\
  slug (fst (preSave E d)) = slug d.
Proof.
  pose proof (preSave_cases E d) as H.
  destruct (preSave E d) as [d' [e|]]; simpl; [intros _; exact H | congruence].
Qed.

(** The title is modified at the test of the slug when it was modified at
    the start or the loop has changed it by trimming. *)
Lemma tracked_title (d : EventDocument) (t : Z) (m : MatchResult) :
  tracked d t m "title" = titleModified d.
Proof.
  unfold tracked, titleModified. rewrite !assigned_at.
  cbn [String.eqb Ascii.eqb Bool.eqb].
  rewrite !andb_false_r, andb_true_r. cbn [orb]. apply orb_comm.
Qed.

Lemma slugDue_title (d : EventDocument) (t : Z) (m : MatchResult) :
  slugDue d t m = titleModified d || falsy (slug d).
Proof. unfold slugDue. now rewrite tracked_title. Qed.

Lemma normalized_title_modified (d : EventDocument) (t : Z) (m : MatchResult) :
  isModified (normalized d t m) "title" = titleModified d.
Proof.
  unfold normalized. cbn [isModified].
  destruct (slugDue d t m); [rewrite assigned_at|]; rewrite tracked_title.
  - cbn [String.eqb Ascii.eqb Bool.eqb]. now rewrite andb_false_r.
  - reflexivity.
Qed.

Lemma slugDue_entry (d : EventDocument) (t : Z) (m : MatchResult) :
  isModified d "title" || falsy (slug d) = true -> slugDue d t m = true.
Proof.
  rewrite slugDue_title. unfold titleModified.
  destruct (isModified d "title"); [reflexivity|]. simpl. intros ->.
  apply orb_true_r.
Qed.

Lemma titleModified_trimmed (d : EventDocument) (t : jsstring) :
  isModified d "title" = false -> title d = Some t -> trim t = t ->
  titleModified d = false.
Proof.
  intros Hm Ht Htrim. unfold titleModified, trimmed. rewrite Hm, Ht. simpl.
  now rewrite Htrim, sameString_refl.
Qed.

Lemma allPresent_time (d : EventDocument) :
  allPresent d = true -> present (time d) = true.
Proof.
  unfold allPresent. simpl. intros H.
  repeat (apply andb_prop in H; destruct H as [? H]). assumption.
Qed.

Lemma timeMatch_exec (d : EventDocument) t :
  time d = Some t -> timeMatch d = exec timeRegex (trim t).
Proof. intros H. unfold timeMatch, trimmed. rewrite H. simpl. now rewrite trim_idem. Qed.

Lemma timeMatch_timeOK (d : EventDocument) :
  timeOK d = false <-> timeMatch d = None.
Proof.
  unfold timeOK, timeMatch, trimmed, test. destruct (time d) as [t|]; simpl.
  - rewrite trim_idem. destruct (exec timeRegex (trim t)); split; congruence.
  - split; reflexivity.
Qed.

Lemma time_rebuild (s : jsstring) (m : MatchResult) :
  exec timeRegex s = Some m ->
  ToString (group 1 m) ++ js ":" ++ ToString (group 2 m) = s.
Proof.
  rewrite exec_timeRegex. destruct (isHHMM s) eqn:Hs; [|discriminate].
  intros H; injection H as <-.
  destruct s as [|h1 [|h2 [|c [|m1 [|m2 [|x s]]]]]]; try discriminate Hs.
  simpl in Hs. repeat (apply andb_prop in Hs; destruct Hs as [Hs ?]).
  match goal with H : isChar ":" c = true |- _ => apply isChar_eq in H; subst c end.
  reflexivity.
Qed.

Lemma test_timeRegex (s : jsstring) : test timeRegex s = isHHMM s.
Proof. unfold test. rewrite exec_timeRegex. now destruct (isHHMM s). Qed.

End EventHook.

(* ===================================================================== *)
(** * The slug *)
(* ===================================================================== *)

(** C1.  For every title, [generateSlug] gives the slug of the
    specification's wording: the title trimmed, lowercased, stripped of the
    characters that are neither alphanumeric nor white space nor hyphens,
    its white space runs turned into one hyphen each and its repeated
    hyphens into one.  This is the slug a successful run of the hook stores
    when it computes one (title modified or slug unset).  The title
    "  Tech Meetup 2024!! " gives "tech-meetup-2024". *)
Theorem C1_slug_follows_wording :
  (forall title, generateSlug title = Spec.slug title) /\
  (forall E d t,
      title d = Some t ->
      isModified d "title" || falsy (slug d) = true ->
      snd (preSave E d) = None ->
      slug (fst (preSave E d)) = Some (Spec.slug t)) /\
  generateSlug (js "  Tech Meetup 2024!! ") = js "tech-meetup-2024".
Proof.
  assert (H : forall title, generateSlug title = Spec.slug title).
  { intros title. rewrite generateSlug_stages. unfold Spec.slug.
    now rewrite filter_toLowerCase_kept. }
  split; [exact H|]. split; [|vm_compute; reflexivity].
  intros E d t Ht Hc Hok.
  destruct (preSave_ok E d Hok) as (t0 & m & _ & _ & _ & ->).
  unfold normalized. cbn [slug]. rewrite (slugDue_entry d t0 m Hc).
  unfold trimmed. rewrite Ht. simpl.
  now rewrite generateSlug_trim, H.
Qed.

Lemma C1_slug_follows_wording_witness :
  slug (fst (preSave utcEngine
               (sampleEvent (js "  Tech Meetup 2024!! ") None
                            (js "2024-03-05") (js "09:05") false)))
  = Some (Spec.slug (js "  Tech Meetup 2024!! ")).
Proof.
  apply (proj1 (proj2 C1_slug_follows_wording)); reflexivity.
Defined.

(** C6.  Slug generation is idempotent: the slug of a slug is that slug. *)
Theorem C6_generateSlug_idempotent (t : jsstring) :
  generateSlug (generateSlug t) = generateSlug t.
Proof. apply generateSlug_idempotent. Qed.

(** C7 as stated fails: an Event loaded with the title " New Title " and the
    slug "old-title", whose title is not modified when the hook begins, is
    accepted and leaves the hook with the slug "new-title".  The assignment
    of the trimmed title at l.115 has changed the title, so that
    [this.isModified('title')] holds at l.142. *)
Lemma C7_counterexample :
  let d := sampleEvent (js " New Title ") (Some (js "old-title"))
                       (js "2024-03-05") (js "09:05") false in
  isModified d "title" = false /\
  slug d = Some (js "old-title") /\
  snd (preSave utcEngine d) = None /\
  slug (fst (preSave utcEngine d)) = Some (js "new-title") /\
  slug (fst (preSave utcEngine d)) <> slug d.
Proof. vm_compute. repeat split; discriminate. Qed.

(** C7, amended.  The hook recomputes the slug exactly when the title is
    modified at the test [this.isModified('title')] of l.142 or the slug is
    unset: a successful run leaves as slug the slug generated from the
    stored title in that case, and the slug it found otherwise.  The title
    is modified at that test, as it is when the run ends, when it was
    modified when the hook began or when the assignment of the trimmed
    title at l.115 has changed it.  In every run, when the title is
    unmodified at that test and a slug is present the slug is left as it
    was; this is so whenever the title was not modified when the hook
    began, is already trimmed, and a slug is present. *)
Theorem C7_slug_recomputed_when_needed (E : Engine) (d : EventDocument) :
  (snd (preSave E d) = None ->
   slug (fst (preSave E d)) =
   if isModified (fst (preSave E d)) "title" || falsy (slug d)
   then option_map generateSlug (title (fst (preSave E d)))
   else slug d) /\
  (snd (preSave E d) = None ->
   isModified (fst (preSave E d)) "title" =
   isModified d "title" ||
   negb (sameValue (title d) (title (fst (preSave E d))))) /\
  (isModified (fst (preSave E d)) "title" = false -> falsy (slug d) = false ->
   slug (fst (preSave E d)) = slug d) /\
  (forall t,
      isModified d "title" = false -> title d = Some t -> trim t = t ->
      falsy (slug d) = false ->
      slug (fst (preSave E d)) = slug d).
Proof.
  split; [|split; [|split]].
  - intros Hok. destruct (preSave_ok E d Hok) as (t & m & _ & _ & _ & ->).
    rewrite normalized_title_modified. unfold normalized. cbn [slug title fst].
    now rewrite slugDue_title.
  - intros Hok. destruct (preSave_ok E d Hok) as (t & m & _ & _ & _ & ->).
    rewrite normalized_title_modified. reflexivity.
  - intros Hm Hs. destruct (snd (preSave E d)) as [e|] eqn:Hr.
    + apply preSave_failed. congruence.
    + destruct (preSave_ok E d Hr) as (t & m & _ & _ & _ & Hd).
      rewrite Hd in *. rewrite normalized_title_modified in Hm.
      unfold normalized. cbn [slug]. now rewrite slugDue_title, Hm, Hs.
  - intros t Hm Ht Htrim Hs. destruct (snd (preSave E d)) as [e|] eqn:Hr.
    + apply preSave_failed. congruence.
    + destruct (preSave_ok E d Hr) as (t0 & m & _ & _ & _ & ->).
      unfold normalized. cbn [slug].
      now rewrite slugDue_title, (titleModified_trimmed d t Hm Ht Htrim), Hs.
Qed.

Lemma C7_slug_recomputed_when_needed_witness :
  slug (fst (preSave utcEngine
               (sampleEvent (js "New Title") (Some (js "old-title"))
                            (js "2024-03-05") (js "09:05") true)))
  = Some (js "new-title")
  /\ slug (fst (preSave utcEngine
               (sampleEvent (js " New Title ") (Some (js "old-title"))
                            (js "2024-03-05") (js "09:05") false)))
  = Some (js "new-title")
  /\ isModified (fst (preSave utcEngine
               (sampleEvent (js " New Title ") (Some (js "old-title"))
                            (js "2024-03-05") (js "09:05") false))) "title"
  = true
  /\ slug (fst (preSave utcEngine
               (sampleEvent (js "New Title") (Some (js "old-title"))
                            (js "2024-03-05") (js "09:05") false)))
  = Some (js "old-title")
  /\ slug (fst (preSave utcEngine
               (sampleEvent (js "New Title") (Some (js "old-title"))
                            (js "2024-03-05") (js "9:5") false)))
  = Some (js "old-title").
Proof.
  split; [|split; [|split; [|split]]].
  - exact (proj1 (C7_slug_recomputed_when_needed utcEngine
                    (sampleEvent (js "New Title") (Some (js "old-title"))
                                 (js "2024-03-05") (js "09:05") true))
                 eq_refl).
  - exact (proj1 (C7_slug_recomputed_when_needed utcEngine
                    (sampleEvent (js " New Title ") (Some (js "old-title"))
                                 (js "2024-03-05") (js "09:05") false))
                 eq_refl).
  - exact (proj1 (proj2 (C7_slug_recomputed_when_needed utcEngine
                    (sampleEvent (js " New Title ") (Some (js "old-title"))
                                 (js "2024-03-05") (js "09:05") false)))
                 eq_refl).
  - exact (proj2 (proj2 (proj2 (C7_slug_recomputed_when_needed utcEngine
                    (sampleEvent (js "New Title") (Some (js "old-title"))
                                 (js "2024-03-05") (js "09:05") false))))
                 (js "New Title") eq_refl eq_refl eq_refl eq_refl).
  - exact (proj1 (proj2 (proj2 (C7_slug_recomputed_when_needed utcEngine
                    (sampleEvent (js "New Title") (Some (js "old-title"))
                                 (js "2024-03-05") (js "9:5") false))))
                 eq_refl eq_refl).
Defined.

(** C9.  Some title that is not blank has the empty slug: with the title
    "!!!" the loop over the required attributes accepts the title, the run
    succeeds, and the slug it stores is the empty string. *)
Theorem C9_empty_slug_of_nonblank_title :
  exists title,
    present (Some title) = true /\
    generateSlug title = js "" /\
    forall E,
      let run := preSave E (sampleEvent title None (js "2024-03-05")
                                        (js "09:05") false) in
      snd run = None /\ EventModel.title (fst run) = Some title /\
      slug (fst run) = Some (js "").
Proof.
  exists (js "!!!"). split; [reflexivity|]. split; [reflexivity|].
  intros E. vm_compute. repeat split.
Qed.

(* ===================================================================== *)
(** * The time *)
(* ===================================================================== *)

Lemma preSave_time_stored (E : Engine) (d : EventDocument) (t : jsstring) :
  time d = Some t -> snd (preSave E d) = None ->
  isHHMM (trim t) = true /\ time (fst (preSave E d)) = Some (trim t).
Proof.
  intros Ht Hok. destruct (preSave_ok E d Hok) as (t0 & m & _ & _ & Hm & ->).
  rewrite (timeMatch_exec d t Ht) in Hm.
  split.
  - rewrite <- test_timeRegex. unfold test, exec in *. now rewrite Hm.
  - unfold normalized. cbn [time]. now rewrite (time_rebuild _ _ Hm).
Qed.

Lemma preSave_time_rejected (E : Engine) (d : EventDocument) :
  timeOK d = false -> snd (preSave E d) <> None.
Proof.
  intros Hno Hok. destruct (preSave_ok E d Hok) as (t0 & m & _ & _ & Hm & _).
  apply timeMatch_timeOK in Hno. congruence.
Qed.

(** C10.  Time normalization is the identity on valid input: when the
    trimmed time matches the pattern, a successful run stores the trimmed
    input character for character; nothing is padded, "9:05" is rejected. *)
Theorem C10_time_stored_as_trimmed :
  (forall E d t,
      time d = Some t ->
      test timeRegex (trim t) = true ->
      snd (preSave E d) = None ->
      time (fst (preSave E d)) = Some (trim t)) /\
  (forall E d, time d = Some (js "9:05") -> snd (preSave E d) <> None).
Proof.
  split.
  - intros E d t Ht _ Hok. now apply preSave_time_stored.
  - intros E d Ht. apply preSave_time_rejected. unfold timeOK. now rewrite Ht.
Qed.

Lemma C10_time_stored_as_trimmed_witness :
  time (fst (preSave utcEngine
               (sampleEvent (js "Tech Meetup") None (js "2024-03-05")
                            (js "  23:59 ") false)))
  = Some (trim (js "  23:59 ")).
Proof.
  apply (proj1 C10_time_stored_as_trimmed); reflexivity.
Defined.

(** C3 as stated fails: an Event with a blank title and the time "09:05" is
    rejected although its trimmed time matches the pattern. *)
Lemma C3_counterexample :
  let d := sampleEvent (js "   ") None (js "2024-03-05") (js "09:05") false in
  ~ (snd (preSave utcEngine d) <> None <-> timeOK d = false).
Proof.
  intros d [H _]. assert (Hd : timeOK d = false) by (apply H; discriminate).
  discriminate Hd.
Qed.

(** C3, amended.  Whenever the time is no string or its trimmed form does
    not match the pattern, the hook fails; for a document whose required
    attributes are all present and not blank, whose agenda and tags are
    arrays of strings and whose date parses, the hook fails exactly when the
    trimmed time does not match; a successful run stores a time that matches
    the pattern.  The time "9:5" is rejected and the time "09:05" is stored
    as "09:05". *)
Theorem C3_time_checked :
  (forall E d, timeOK d = false -> snd (preSave E d) <> None) /\
  (forall E d,
      allPresent d = true -> stringArrays d = true -> parsedDate E d <> None ->
      (snd (preSave E d) <> None <-> timeOK d = false)) /\
  (forall E d,
      snd (preSave E d) = None ->
      exists t', time (fst (preSave E d)) = Some t' /\ test timeRegex t' = true) /\
  (forall E d, time d = Some (js "9:5") -> snd (preSave E d) <> None) /\
  (forall E d,
      time d = Some (js "09:05") -> snd (preSave E d) = None ->
      time (fst (preSave E d)) = Some (js "09:05")).
Proof.
  split; [exact preSave_time_rejected|]. split; [|split; [|split]].
  - intros E d Hp Ha Hd. split; [|apply preSave_time_rejected].
    intros Hfail. apply timeMatch_timeOK.
    destruct (preSave_failed E d Hfail) as ([H | [H | [H | H]]] & _); congruence.
  - intros E d Hok.
    destruct (preSave_ok E d Hok) as (t0 & m & Hp & _ & Hm & _).
    apply allPresent_time in Hp. destruct (time d) as [t|] eqn:Ht; [|discriminate].
    destruct (preSave_time_stored E d t Ht Hok) as [Hh Hst].
    exists (trim t). split; [exact Hst|]. now rewrite test_timeRegex.
  - intros E d Ht. apply preSave_time_rejected. unfold timeOK. now rewrite Ht.
  - intros E d Ht Hok. now destruct (preSave_time_stored E d _ Ht Hok).
Qed.

Lemma C3_time_checked_witness :
  (snd (preSave utcEngine
          (sampleEvent (js "Tech Meetup") None (js "2024-03-05") (js "9:5") false))
   <> None) /\
  (snd (preSave utcEngine
          (sampleEvent (js "Tech Meetup") None (js "2024-03-05") (js "24:00") false))
   <> None <->
   timeOK (sampleEvent (js "Tech Meetup") None (js "2024-03-05") (js "24:00") false)
   = false) /\
  time (fst (preSave utcEngine
          (sampleEvent (js "Tech Meetup") None (js "2024-03-05") (js "09:05") false)))
  = Some (js "09:05").
Proof.
  split; [|split].
  - apply (proj1 C3_time_checked). reflexivity.
  - apply (proj1 (proj2 C3_time_checked));
      [reflexivity | reflexivity | discriminate].
  - apply (proj2 (proj2 (proj2 (proj2 C3_time_checked)))); reflexivity.
Defined.

(* ===================================================================== *)
(** * Calendar arithmetic *)
(* ===================================================================== *)

Section Calendar.

Local Open Scope Z_scope.

Lemma DayFromYear_succ (y : Z) :
  DayFromYear (y + 1) - DayFromYear y = DaysInYear y.
Proof.
  unfold DayFromYear, DaysInYear, isLeapYear.
  replace (y + 1 - 1970) with (y - 1969) by lia.
  replace (y + 1 - 1969) with (y - 1968) by lia.
  replace (y + 1 - 1901) with (y - 1900) by lia.
  replace (y + 1 - 1601) with (y - 1600) by lia.
  destruct (Z.eqb_spec (y mod 4) 0) as [E4|E4];
    destruct (Z.eqb_spec (y mod 100) 0) as [E100|E100];
    destruct (Z.eqb_spec (y mod 400) 0) as [E400|E400]; cbn [andb orb negb];
    Z.div_mod_to_equations; lia.
Qed.

(** [YearFromDay d] is the year whose days include day [d]; the years being
    consecutive, it is the largest year that starts on or before [d]. *)
Lemma YearFromDay_spec (d : Z) :
  DayFromYear (YearFromDay d) <= d < DayFromYear (YearFromDay d + 1).
Proof.
  unfold YearFromDay.
  change (DayFromYear 1601) with (-134774).
  set (n := d - -134774).
  assert (Hd : d = n - 134774) by (unfold n; lia). clearbody n. subst d.
  set (q400 := n / 146097). set (r400 := n mod 146097).
  assert (H400 : n = 146097 * q400 + r400 /\ 0 <= r400 < 146097).
  { unfold q400, r400. pose proof (Z.div_mod n 146097 ltac:(lia)).
    pose proof (Z.mod_pos_bound n 146097 ltac:(lia)). lia. }
  clearbody q400 r400. destruct H400 as [-> Hr400].
  set (q100 := Z.min (r400 / 36524) 3).
  assert (H100 : 0 <= q100 <= 3 /\ 0 <= r400 - 36524 * q100 /\
                 (q100 < 3 -> r400 - 36524 * q100 < 36524) /\
                 r400 - 36524 * q100 <= 36524).
  { unfold q100. Z.div_mod_to_equations. lia. }
  clearbody q100. set (r100 := r400 - 36524 * q100) in *.
  assert (Hr : r400 = r100 + 36524 * q100) by (unfold r100; lia).
  clearbody r100. subst r400.
  set (q4 := r100 / 1461). set (r4 := r100 mod 1461).
  assert (H4 : r100 = 1461 * q4 + r4 /\ 0 <= r4 < 1461).
  { unfold q4, r4. pose proof (Z.div_mod r100 1461 ltac:(lia)).
    pose proof (Z.mod_pos_bound r100 1461 ltac:(lia)). lia. }
  clearbody q4 r4. destruct H4 as [-> Hr4].
  set (q1 := Z.min (r4 / 365) 3).
  assert (H1 : 0 <= q1 <= 3 /\ 0 <= r4 - 365 * q1 /\
               (q1 < 3 -> r4 - 365 * q1 < 365) /\ r4 - 365 * q1 <= 365).
  { unfold q1. Z.div_mod_to_equations. lia. }
  clearbody q1.
  unfold DayFromYear. Z.div_mod_to_equations. lia.
Qed.

Lemma DayFromYear_mono (y y' : Z) : y <= y' -> DayFromYear y <= DayFromYear y'.
Proof. intros H. unfold DayFromYear. Z.div_mod_to_equations. lia. Qed.

(** ECMA-262 defines the year of a time value as the largest year that
    starts on or before it; [YearFromDay] is that year. *)
Lemma YearFromDay_largest (d y : Z) :
  DayFromYear y <= d -> y <= YearFromDay d.
Proof.
  intros Hy. pose proof (YearFromDay_spec d) as [_ Hlt].
  destruct (Z_le_gt_dec y (YearFromDay d)) as [H|H]; [exact H|].
  pose proof (DayFromYear_mono (YearFromDay d + 1) y ltac:(lia)). lia.
Qed.

Lemma DayWithinYear_bounds (t : Z) :
  0 <= DayWithinYear t < 365 + InLeapYear t.
Proof.
  unfold DayWithinYear, InLeapYear, YearFromTime.
  pose proof (YearFromDay_spec (Day t)) as H.
  pose proof (DayFromYear_succ (YearFromDay (Day t))) as Hs.
  unfold DaysInYear in Hs. destruct (isLeapYear (YearFromDay (Day t))); lia.
Qed.

Lemma InLeapYear_cases (t : Z) : InLeapYear t = 0 \/ InLeapYear t = 1.
Proof. unfold InLeapYear. destruct (isLeapYear _); auto. Qed.

Lemma MonthFromTime_bounds (t : Z) : 0 <= MonthFromTime t <= 11.
Proof.
  unfold MonthFromTime.
  repeat match goal with
         | |- context [if ?b then _ else _] => destruct b
         end; lia.
Qed.

Lemma DateFromTime_bounds (t : Z) : 1 <= DateFromTime t <= 31.
Proof.
  pose proof (DayWithinYear_bounds t) as Hd.
  pose proof (InLeapYear_cases t) as Hl.
  unfold DateFromTime, MonthFromTime.
  repeat match goal with
         | |- context [if ?a <? ?b then _ else _] =>
             destruct (Z.ltb_spec a b)
         end; cbn [monthStart]; lia.
Qed.

End Calendar.

(** ** Decimal digits and padding *)

Section Decimal.

Local Open Scope Z_scope.

Lemma digit_char (n : Z) :
  0 <= n -> isDigit (ascii_of_N (Z.to_N (48 + n mod 10))) = true.
Proof.
  intros Hn. pose proof (Z.mod_pos_bound n 10 ltac:(lia)) as Hm.
  unfold isDigit, range, code. rewrite N_ascii_embedding by lia.
  change (N_of_ascii "0") with 48%N. change (N_of_ascii "9") with 57%N.
  apply andb_true_intro. split; apply N.leb_le; lia.
Qed.

Lemma decimal_go_digits (fuel : nat) :
  forall n acc, 0 <= n ->
  Forall (fun c => isDigit c = true) acc ->
  Forall (fun c => isDigit c = true) (decimal_go fuel n acc).
Proof.
  induction fuel as [|fuel IH]; intros n acc Hn Hacc; simpl; [exact Hacc|].
  assert (Hacc' : Forall (fun c => isDigit c = true)
                    (ascii_of_N (Z.to_N (48 + n mod 10)) :: acc))
    by (constructor; [now apply digit_char | exact Hacc]).
  destruct (n <? 10); [exact Hacc'|].
  apply IH; [apply Z.div_pos; lia | exact Hacc'].
Qed.

Lemma decimal_go_length (fuel : nat) :
  forall (k : nat) n acc, 0 <= n < 10 ^ Z.of_nat (S k) ->
  (length (decimal_go fuel n acc) <= S k + length acc)%nat.
Proof.
  induction fuel as [|fuel IH]; intros k n acc Hn; simpl; [lia|].
  destruct (Z.ltb_spec n 10) as [Hlt|Hge]; [simpl; lia|].
  destruct k as [|k]; [simpl in Hn; lia|].
  specialize (IH k (n / 10) (ascii_of_N (Z.to_N (48 + n mod 10)) :: acc)).
  simpl length in IH.
  assert (0 <= n / 10 < 10 ^ Z.of_nat (S k)); [|lia].
  replace (10 ^ Z.of_nat (S (S k))) with (10 * 10 ^ Z.of_nat (S k)) in Hn.
  - split; [apply Z.div_pos; lia|]. apply Z.div_lt_upper_bound; lia.
  - rewrite (Nat2Z.inj_succ (S k)), Z.pow_succ_r by lia. reflexivity.
Qed.

Lemma pad_digits (w : nat) (n : Z) :
  0 <= n -> Forall (fun c => isDigit c = true) (pad w n).
Proof.
  intros Hn. unfold pad, padStart0. apply Forall_app. split.
  - apply Forall_forall. intros c Hc. apply repeat_spec in Hc. now subst c.
  - unfold decimal. apply decimal_go_digits; [exact Hn | constructor].
Qed.

Lemma pad_length (k : nat) (n : Z) :
  0 <= n < 10 ^ Z.of_nat (S k) -> length (pad (S k) n) = S k.
Proof.
  intros Hn. unfold pad, padStart0. rewrite length_app, repeat_length.
  pose proof (decimal_go_length (S (Z.to_nat (Z.log2 n))) k n [] Hn) as H.
  fold (decimal n) in H. simpl length in H. lia.
Qed.

(** [decimal] prints the number it is given. *)
Lemma decimal_go_value (fuel : nat) :
  forall n acc, 0 <= n < 2 ^ Z.of_nat fuel ->
  numberOf (decimal_go fuel n acc) = n * 10 ^ Z.of_nat (length acc) + numberOf acc.
Proof.
  induction fuel as [|fuel IH]; intros n acc Hn.
  - simpl in Hn. assert (n = 0) by lia. subst n. reflexivity.
  - cbn [decimal_go].
    pose proof (Z.mod_pos_bound n 10 ltac:(lia)) as Hm.
    assert (Hd : Z.of_N (code (ascii_of_N (Z.to_N (48 + n mod 10)))) - 48 = n mod 10).
    { unfold code. rewrite N_ascii_embedding by lia. lia. }
    destruct (Z.ltb_spec n 10) as [Hlt|Hge].
    + cbn [numberOf]. rewrite Hd, Z.mod_small by lia. reflexivity.
    + rewrite IH.
      * cbn [numberOf length]. rewrite Hd, Nat2Z.inj_succ, Z.pow_succ_r by lia.
        pose proof (Z.div_mod n 10 ltac:(lia)). nia.
      * rewrite Nat2Z.inj_succ, Z.pow_succ_r in Hn by lia.
        split; [apply Z.div_pos; lia|]. apply Z.div_lt_upper_bound; lia.
Qed.

Lemma decimal_value (n : Z) : 0 <= n -> numberOf (decimal n) = n.
Proof.
  intros Hn. unfold decimal. rewrite decimal_go_value; [simpl; lia|].
  split; [exact Hn|].
  destruct (Z.eq_dec n 0) as [->|Hne]; [reflexivity|].
  rewrite Nat2Z.inj_succ, Z2Nat.id by apply Z.log2_nonneg.
  apply Z.log2_spec. lia.
Qed.

Lemma numberOf_zeros (k : nat) (s : jsstring) :
  numberOf (repeat "0"%char k ++ s) = numberOf s.
Proof. induction k as [|k IH]; [reflexivity|]. cbn [repeat app numberOf]. rewrite IH. reflexivity. Qed.

Lemma pad_value (w : nat) (n : Z) : 0 <= n -> numberOf (pad w n) = n.
Proof. intros Hn. unfold pad, padStart0. now rewrite numberOf_zeros, decimal_value. Qed.

End Decimal.

(* ===================================================================== *)
(** * The date *)
(* ===================================================================== *)

(** C2, at a date with an expanded year.  The string
    "+010000-01-01T00:00:00.000Z" is in the Date Time String Format (it is
    what [toISOString] prints for the first day of the year 10000), so it
    parses whatever the engine; the hook succeeds and stores
    "+010000-01-01", which has 13 characters and is no YYYY-MM-DD date. *)
Theorem C2_expanded_year_stored :
  forall E,
    let run := preSave E (sampleEvent (js "Tech Meetup") None
                                      (js "+010000-01-01T00:00:00.000Z")
                                      (js "09:05") false) in
    snd run = None /\
    date (fst run) = Some (js "+010000-01-01") /\
    option_map (@length ascii) (date (fst run)) = Some 13 /\
    option_map isYYYYMMDD (date (fst run)) = Some false.
Proof. intros E. vm_compute. repeat split. Qed.

(** The hook fails on every document whose date does not parse. *)
Lemma preSave_date_rejected (E : Engine) (d : EventDocument) :
  parsedDate E d = None -> snd (preSave E d) <> None.
Proof.
  intros Hno Hok. destruct (preSave_ok E d Hok) as (t0 & m & _ & Hd & _ & _).
  congruence.
Qed.

(** The date "2024-03-05T10:00:00Z" is stored as "2024-03-05". *)
Lemma preSave_date_example (E : Engine) :
  date (fst (preSave E (sampleEvent (js "Tech Meetup") None
                          (js "2024-03-05T10:00:00Z") (js "09:05") false)))
  = Some (js "2024-03-05").
Proof. vm_compute. reflexivity. Qed.

Lemma digit_not_T (c : ascii) : isDigit c = true -> isChar "T" c = false.
Proof. each_char c; (reflexivity || discriminate). Qed.

Ltac digits_of_lists :=
  repeat match goal with
         | H : Forall _ (_ :: _) |- _ =>
             apply Forall_cons_iff in H; destruct H as [? H]
         end.

(** For a year from 0 to 9999, what stands before the "T" of
    [toISOString] is a date of ten characters, YYYY-MM-DD. *)
Lemma toISOString_date (t : Z) :
  (0 <= YearFromTime t <= 9999)%Z ->
  isYYYYMMDD (splitHead "T" (toISOString t)) = true.
Proof.
  intros Hy. unfold toISOString, yearString.
  replace ((0 <=? YearFromTime t)%Z && (YearFromTime t <=? 9999)%Z) with true
    by (symmetry; apply andb_true_intro; split; apply Z.leb_le; lia).
  pose proof (MonthFromTime_bounds t) as Hm.
  pose proof (DateFromTime_bounds t) as Hd.
  pose proof (pad_length 3 (YearFromTime t) ltac:(simpl; lia)) as LY.
  pose proof (pad_length 1 (MonthFromTime t + 1) ltac:(simpl; lia)) as LM.
  pose proof (pad_length 1 (DateFromTime t) ltac:(simpl; lia)) as LD.
  pose proof (pad_digits 4 (YearFromTime t) ltac:(lia)) as DY.
  pose proof (pad_digits 2 (MonthFromTime t + 1) ltac:(lia)) as DM.
  pose proof (pad_digits 2 (DateFromTime t) ltac:(lia)) as DD.
  destruct (pad 4 (YearFromTime t)) as [|y1 [|y2 [|y3 [|y4 [|]]]]];
    try discriminate LY.
  destruct (pad 2 (MonthFromTime t + 1)) as [|m1 [|m2 [|]]]; try discriminate LM.
  destruct (pad 2 (DateFromTime t)) as [|d1 [|d2 [|]]]; try discriminate LD.
  digits_of_lists.
  unfold splitHead. cbn [app js list_ascii_of_string takeWhile].
  change (isChar "T" "-") with false. change (isChar "T" "T") with true.
  rewrite !digit_not_T by assumption.
  cbn [negb isYYYYMMDD].
  change (isChar "-" "-") with true.
  repeat match goal with H : isDigit _ = true |- _ => rewrite H; clear H end.
  reflexivity.
Qed.

(** A successful run stores, as date, what stands before the "T" in the
    ISO string of the parsed date; for a year from 0 to 9999 that is a date
    of ten characters, YYYY-MM-DD. *)
Lemma preSave_date_stored (E : Engine) (d : EventDocument) :
  snd (preSave E d) = None ->
  exists t, parsedDate E d = Some t /\
            date (fst (preSave E d)) = Some (splitHead "T" (toISOString t)) /\
            ((0 <= YearFromTime t <= 9999)%Z ->
             isYYYYMMDD (splitHead "T" (toISOString t)) = true).
Proof.
  intros Hok. destruct (preSave_ok E d Hok) as (t & m & _ & Hd & _ & ->).
  exists t. split; [exact Hd|]. split; [reflexivity | apply toISOString_date].
Qed.

(* ===================================================================== *)
(** * The Booking pre-save hook *)
(* ===================================================================== *)

Lemma Event_exists_found (events : list BookingModel.ObjectId) id :
  In id events -> BookingModel.Event_exists events id = Fulfilled (Some id).
Proof.
  intros Hin. unfold BookingModel.Event_exists.
  replace (existsb (N.eqb id) events) with true; [reflexivity|].
  symmetry. apply existsb_exists. exists id. split; [exact Hin | apply N.eqb_refl].
Qed.

Lemma Event_exists_missing (events : list BookingModel.ObjectId) id :
  ~ In id events -> BookingModel.Event_exists events id = Fulfilled None.
Proof.
  intros Hout. unfold BookingModel.Event_exists.
  destruct (existsb (N.eqb id) events) eqn:Hex; [|reflexivity].
  apply existsb_exists in Hex. destruct Hex as (x & Hx & Heq).
  apply N.eqb_eq in Heq. subst x. contradiction.
Qed.

Lemma booking_preSave_valid (q : BookingModel.ExistsQuery) b :
  BookingModel.emailValid b = true ->
  BookingModel.preSave q b =
  match BookingModel.eventId b with
  | None => Some (MkError "eventId is required.")
  | Some id =>
      match q id with
      | Rejected error => Some error
      | Fulfilled None => Some (MkError "Referenced event does not exist.")
      | Fulfilled (Some _) => None
      end
  end.
Proof.
  unfold BookingModel.emailValid, BookingModel.preSave. intros H.
  apply andb_prop in H. destruct H as [H1 H2].
  apply negb_true_iff in H1. now rewrite H1, H2.
Qed.

Lemma booking_preSave_invalid (q : BookingModel.ExistsQuery) b :
  BookingModel.emailValid b = false ->
  BookingModel.preSave q b =
  Some (MkError "Email must be a valid, non-empty email address.").
Proof.
  unfold BookingModel.emailValid, BookingModel.preSave. intros H.
  destruct (falsy (BookingModel.email b)); [reflexivity|].
  simpl in H. now rewrite H.
Qed.

(** C4.  The hook asks the Event store whether the referenced Event exists.
    When the store holds no Event of that identity the hook fails (with the
    referential error when the email is valid); when it holds one and the
    email is valid, the hook succeeds. *)
Theorem C4_referenced_event_must_exist :
  (forall events b id,
      BookingModel.eventId b = Some id -> ~ In id events ->
      BookingModel.preSave (BookingModel.Event_exists events) b <> None /\
      (BookingModel.emailValid b = true ->
       BookingModel.preSave (BookingModel.Event_exists events) b =
       Some (MkError "Referenced event does not exist."))) /\
  (forall events b id,
      BookingModel.eventId b = Some id -> In id events ->
      BookingModel.emailValid b = true ->
      BookingModel.preSave (BookingModel.Event_exists events) b = None).
Proof.
  split.
  - intros events b id Hid Hout.
    destruct (BookingModel.emailValid b) eqn:Hv.
    + rewrite (booking_preSave_valid _ b Hv), Hid, (Event_exists_missing _ _ Hout).
      split; [discriminate | reflexivity].
    + rewrite (booking_preSave_invalid _ b Hv). split; [discriminate | discriminate].
  - intros events b id Hid Hin Hv.
    now rewrite (booking_preSave_valid _ b Hv), Hid, (Event_exists_found _ _ Hin).
Qed.

Lemma C4_referenced_event_must_exist_witness :
  BookingModel.preSave (BookingModel.Event_exists [7; 9]%N)
    (BookingModel.Booking (Some 8%N) (Some (js "Ada@Example.org")))
  = Some (MkError "Referenced event does not exist.")
  /\ BookingModel.preSave (BookingModel.Event_exists [7; 9]%N)
       (BookingModel.Booking (Some 9%N) (Some (js "Ada@Example.org")))
     = None.
Proof.
  split.
  - apply (proj1 C4_referenced_event_must_exist [7; 9]%N _ 8%N); try reflexivity.
    simpl. intros [H | [H | []]]; discriminate H.
  - apply (proj2 C4_referenced_event_must_exist [7; 9]%N _ 9%N); try reflexivity.
    simpl. right. left. reflexivity.
Defined.

(** C8.  The hook fails when the email is absent and when it does not match
    the email pattern.  A Booking made through the schema holds its email
    lowercased and trimmed: when its save succeeds, the stored email is the
    lower-case form of the trimmed input, which lowercasing and trimming
    leave as it is. *)
Theorem C8_email_checked_and_normalized :
  (forall q b, BookingModel.email b = None -> BookingModel.preSave q b <> None) /\
  (forall q b e,
      BookingModel.email b = Some e -> test BookingModel.EMAIL_REGEX e = false ->
      BookingModel.preSave q b <> None) /\
  (forall q id raw,
      BookingModel.preSave q (BookingModel.Booking id raw) = None ->
      exists r e,
        raw = Some r /\
        BookingModel.email (BookingModel.Booking id raw) = Some e /\
        e = toLowerCase (trim r) /\ toLowerCase e = e /\ trim e = e).
Proof.
  split; [|split].
  - intros q b Hb. rewrite booking_preSave_invalid; [discriminate|].
    unfold BookingModel.emailValid. now rewrite Hb.
  - intros q b e Hb He. rewrite booking_preSave_invalid; [discriminate|].
    unfold BookingModel.emailValid. rewrite Hb. simpl. rewrite He.
    apply andb_false_r.
  - intros q id [r|] Hok.
    + exists r, (toLowerCase (trim r)). split; [reflexivity|].
      split; [|split; [reflexivity|split]].
      * simpl. unfold BookingModel.emailSetters. now rewrite trim_toLowerCase.
      * apply toLowerCase_idem.
      * rewrite <- trim_toLowerCase. apply trim_idem.
    + discriminate Hok.
Qed.

Lemma C8_email_checked_and_normalized_witness :
  BookingModel.preSave (BookingModel.Event_exists [9%N])
    (BookingModel.mkBooking (Some 9%N) (Some (js "ada.example.org"))) <> None
  /\ exists r e,
       Some (js "  Ada@Example.ORG ") = Some r /\
       BookingModel.email
         (BookingModel.Booking (Some 9%N) (Some (js "  Ada@Example.ORG ")))
       = Some e /\
       e = toLowerCase (trim r) /\ toLowerCase e = e /\ trim e = e.
Proof.
  split.
  - apply (proj1 (proj2 C8_email_checked_and_normalized)
             (BookingModel.Event_exists [9%N]) _ (js "ada.example.org"));
      reflexivity.
  - apply (proj2 (proj2 C8_email_checked_and_normalized)
             (BookingModel.Event_exists [9%N])).
    reflexivity.
Defined.

Example booking_email_stored :
  BookingModel.email
    (BookingModel.Booking (Some 9%N) (Some (js "  Ada@Example.ORG ")))
  = Some (js "ada@example.org").
Proof. reflexivity. Qed.

(* ===================================================================== *)
(** * The connection cache *)
(* ===================================================================== *)

Section Connection.

Import Mongodb.

Variable Mongoose : Type.
Variable settle : Promise -> Settled Mongoose.

Lemma connectDB_fresh (w : Process Mongoose) :
  fresh w -> fresh (fst (connectDB settle w)).
Proof.
  unfold fresh, connectDB, ensurePromise.
  destruct w as [[c pr] n]; simpl. intros Hw.
  destruct c as [c|]; simpl; [exact Hw|].
  destruct pr as [p0|]; simpl.
  - destruct (settle p0); simpl; [exact Hw | discriminate].
  - destruct (settle n); simpl; [|discriminate].
    intros p Hp. injection Hp as <-. lia.
Qed.

Lemma initial_fresh : fresh (@initial Mongoose).
Proof. intros p Hp. discriminate Hp. Qed.

End Connection.

(** C5.  When the connection attempt a call of [connectDB] waits for is
    rejected, the call fails with the reason of the rejection and leaves the
    cache without promise and without connection.  The next call then makes
    a new attempt: it calls [mongoose.connect] once more and settles as that
    new attempt settles, which is another attempt than the rejected one. *)
Theorem C5_rejected_attempt_is_cleared
  (Mongoose : Type) (settle : Mongodb.Promise -> Settled Mongoose)
  (w : Mongodb.Process Mongoose) (e : Error) :
  Mongodb.conn (Mongodb.cached w) = None ->
  settle (snd (Mongodb.ensurePromise w)) = Rejected e ->
  let w' := fst (Mongodb.connectDB settle w) in
  snd (Mongodb.connectDB settle w) = Rejected e /\
  Mongodb.promise (Mongodb.cached w') = None /\
  Mongodb.conn (Mongodb.cached w') = None /\
  Mongodb.connects (fst (Mongodb.connectDB settle w')) = S (Mongodb.connects w') /\
  snd (Mongodb.connectDB settle w') = settle (Mongodb.connects w') /\
  (Mongodb.fresh w -> Mongodb.connects w' <> snd (Mongodb.ensurePromise w)).
Proof.
  unfold Mongodb.fresh, Mongodb.connectDB, Mongodb.ensurePromise.
  destruct w as [[c pr] n]; simpl. intros -> Hrej.
  destruct pr as [p0|]; simpl in *; rewrite Hrej; simpl.
  - repeat split; try (destruct (settle n); reflexivity).
    intros Hw. specialize (Hw p0 eq_refl). lia.
  - repeat split; try (destruct (settle (S n)); reflexivity).
    intros _. lia.
Qed.

Lemma C5_rejected_attempt_is_cleared_witness :
  let w' := fst (Mongodb.connectDB Mongodb.refusedOnce Mongodb.initial) in
  snd (Mongodb.connectDB Mongodb.refusedOnce Mongodb.initial)
  = Rejected (MkError "connect ECONNREFUSED") /\
  Mongodb.promise (Mongodb.cached w') = None /\
  Mongodb.conn (Mongodb.cached w') = None /\
  Mongodb.connects (fst (Mongodb.connectDB Mongodb.refusedOnce w'))
  = S (Mongodb.connects w') /\
  snd (Mongodb.connectDB Mongodb.refusedOnce w')
  = Mongodb.refusedOnce (Mongodb.connects w') /\
  (Mongodb.fresh (@Mongodb.initial nat) ->
   Mongodb.connects w' <> snd (Mongodb.ensurePromise (@Mongodb.initial nat))).
Proof.
  exact (C5_rejected_attempt_is_cleared nat Mongodb.refusedOnce Mongodb.initial
           (MkError "connect ECONNREFUSED") eq_refl eq_refl).
Defined.

Example connectDB_retry_connects :
  snd (Mongodb.connectDB Mongodb.refusedOnce
         (fst (Mongodb.connectDB Mongodb.refusedOnce Mongodb.initial)))
  = Fulfilled 1.
Proof. reflexivity. Qed.

(* ===================================================================== *)
(** * More on the Event pre-save hook *)
(* ===================================================================== *)

Section EventVerdict.

Variable E : Engine.

Ltac verdict_unfold :=
  cbv [preSave preSaveBody forEach requiredStringFields bind requireField this
       next_error assign ret get set set_slug set_agenda set_tags normalizeDate
       normalizeTime updateSlug trimAgenda trimTags String_
       verdict firstMissing find
       title slug description overview image venue location date time mode
       audience agenda organizer tags isModified
       present parsedDate timeMatch trimmed option_map
       invalidDate invalidTime snd negb].

Ltac verdict_require x :=
  destruct x as [x|];
  [destruct (Datatypes.length (trim x) =? 0) eqn:?|];
  verdict_unfold; [reflexivity | | reflexivity].

Ltac verdict_items x :=
  let H := fresh "Hitems" in
  destruct x as [x|];
  [destruct (trimItems x) as [?|] eqn:H;
   [apply trimItems_Some in H; destruct H as [-> H]|
    apply trimItems_None in H]|];
  unfold stringArrays; cbn [agenda tags];
  repeat match goal with
         | H : isStrings _ = _ |- _ => rewrite H
         end;
  rewrite ?andb_false_r; cbn [andb isStrings];
  verdict_unfold; [| reflexivity | reflexivity].

Lemma preSave_verdict (d : EventDocument) : snd (preSave E d) = verdict E d.
Proof.
  destruct d as [ti sl de ov im ve lo da tm mo au ag og tg md].
  verdict_unfold.
  verdict_require ti. verdict_require de. verdict_require ov.
  verdict_require im. verdict_require ve. verdict_require lo.
  verdict_require da. verdict_require tm. verdict_require mo.
  verdict_require au. verdict_require og.
  verdict_items ag. verdict_items tg.
  destruct (Date_getTime E (trim da)) as [t|]; [|reflexivity].
  destruct (exec timeRegex (trim (trim tm))) as [m|]; [|reflexivity].
  verdict_unfold.
  match goal with
  | |- context [if ?c || falsy sl then _ else _] => destruct (c || falsy sl)
  end; reflexivity.
Qed.

Lemma strings_items (l : Items) :
  isStrings (Some l) = true -> exists items, l = map Some items.
Proof.
  induction l as [|[item|] l IH]; simpl; intros H.
  - now exists [].
  - destruct (IH H) as [items ->]. now exists (item :: items).
  - discriminate.
Qed.

End EventVerdict.

(** X1.  The hook reports the first check that fails, in the order of the
    source: the first required attribute that is missing or blank (named in
    the message); else a TypeError, when the agenda or the tags are not an
    array of strings; else the date that does not parse; else the time that
    does not match.  It succeeds when none fails. *)
Theorem X1_hook_reports_first_failure (E : Engine) (d : EventDocument) :
  snd (preSave E d) =
  match firstMissing d with
  | Some f => Some (requiredError f)
  | None =>
      if isStrings (agenda d) && isStrings (tags d) then
        match parsedDate E d with
        | None => Some invalidDate
        | Some _ =>
            match timeMatch d with
            | None => Some invalidTime
            | Some _ => None
            end
        end
      else Some typeError
  end.
Proof. apply preSave_verdict. Qed.



(** X3.  A successful run stores every required string attribute other than
    the date and the time as the trimmed input, which is not empty, and
    stores the agenda and the tags item by item trimmed, in the same order;
    their items were all strings. *)
Theorem X3_success_stores_trimmed (E : Engine) (d : EventDocument) :
  snd (preSave E d) = None ->
  (forall f, f <> Fdate -> f <> Ftime ->
     exists v, get f d = Some v /\ trim v <> [] /\
               get f (fst (preSave E d)) = Some (trim v)) /\
  (exists items,
      agenda d = Some (map Some items) /\
      agenda (fst (preSave E d)) = Some (map Some (map trim items))) /\
  (exists items,
      tags d = Some (map Some items) /\
      tags (fst (preSave E d)) = Some (map Some (map trim items))).
Proof.
  intros Hok. pose proof (preSave_ok_arrays E d Hok) as Ha.
  destruct (preSave_ok E d Hok) as (t & m & Hp & _ & _ & ->).
  unfold stringArrays in Ha. apply andb_prop in Ha. destruct Ha as [Hag Htg].
  split; [|split].
  - intros f Hd Ht.
    assert (Hf : present (get f d) = true).
    { unfold allPresent in Hp. rewrite forallb_forall in Hp. apply Hp.
      destruct f; simpl; tauto. }
    destruct (get f d) as [v|] eqn:Hv; [|discriminate Hf].
    exists v. split; [reflexivity|]. split.
    + intros Hnil. simpl in Hf. now rewrite Hnil in Hf.
    + destruct f; try contradiction; unfold normalized; simpl in *;
        unfold trimmed; now rewrite Hv.
  - destruct (agenda d) as [l|] eqn:El; [|discriminate Hag].
    destruct (strings_items l Hag) as [items ->]. exists items.
    split; [reflexivity|]. unfold normalized. cbn [agenda fst]. rewrite El.
    unfold trimmedItems. cbn [option_map]. now rewrite !map_map.
  - destruct (tags d) as [l|] eqn:El; [|discriminate Htg].
    destruct (strings_items l Htg) as [items ->]. exists items.
    split; [reflexivity|]. unfold normalized. cbn [tags fst]. rewrite El.
    unfold trimmedItems. cbn [option_map]. now rewrite !map_map.
Qed.

Lemma X3_success_stores_trimmed_witness :
  (forall f, f <> Fdate -> f <> Ftime ->
     exists v,
       get f (sampleEvent (js "  Tech Meetup ") None (js "2024-03-05")
                          (js "09:05") false) = Some v /\
       trim v <> [] /\
       get f (fst (preSave utcEngine
                     (sampleEvent (js "  Tech Meetup ") None (js "2024-03-05")
                                  (js "09:05") false))) = Some (trim v)) /\
  (exists items,
      agenda (sampleEvent (js "  Tech Meetup ") None (js "2024-03-05")
                          (js "09:05") false) = Some (map Some items) /\
      agenda (fst (preSave utcEngine
                     (sampleEvent (js "  Tech Meetup ") None (js "2024-03-05")
                                  (js "09:05") false)))
      = Some (map Some (map trim items))) /\
  (exists items,
      tags (sampleEvent (js "  Tech Meetup ") None (js "2024-03-05")
                        (js "09:05") false) = Some (map Some items) /\
      tags (fst (preSave utcEngine
                   (sampleEvent (js "  Tech Meetup ") None (js "2024-03-05")
                                (js "09:05") false)))
      = Some (map Some (map trim items))).
Proof.
  apply X3_success_stores_trimmed. reflexivity.
Defined.

(* ===================================================================== *)
(** * More on the slug *)
(* ===================================================================== *)

Section CollapseShape.

Variables (p : ascii -> bool) (r : ascii).

Lemma collapse_true_head (s : jsstring) c s' :
  Spec.collapse p r true s = c :: s' -> p c = false.
Proof.
  induction s as [|x s IH]; simpl; [discriminate|].
  destruct (p x) eqn:Hx; [exact IH|]. intros H. injection H as <- _. exact Hx.
Qed.

Lemma collapse_noRepeat (s : jsstring) :
  forall b, noRepeat p (Spec.collapse p r b s) = true.
Proof.
  induction s as [|x s IH]; intros b; [reflexivity|]. simpl.
  destruct (p x) eqn:Hx.
  - destruct b; [apply IH|].
    specialize (IH true). simpl.
    destruct (Spec.collapse p r true s) as [|c s'] eqn:Hc; [reflexivity|].
    rewrite (collapse_true_head s c s' Hc), andb_false_r. exact IH.
  - specialize (IH false). simpl.
    destruct (Spec.collapse p r false s) as [|c s']; [reflexivity|].
    rewrite Hx. exact IH.
Qed.

Lemma collapse_length (s : jsstring) :
  forall b, length (Spec.collapse p r b s) <= length s.
Proof.
  induction s as [|x s IH]; intros b; simpl; [lia|].
  pose proof (IH true). pose proof (IH false).
  destruct (p x); [destruct b|]; simpl; lia.
Qed.

Lemma collapse_nil (s : jsstring) :
  Spec.collapse p r false s = [] <-> s = [].
Proof.
  split; [|now intros ->]. destruct s as [|x s]; [reflexivity|].
  simpl. destruct (p x); discriminate.
Qed.

End CollapseShape.

Lemma trim_length (s : jsstring) : length (trim s) <= length s.
Proof.
  unfold trim, trimEnd, trimStart. rewrite length_rev.
  pose proof (dropWhile_length isWhiteSpace (rev (dropWhile isWhiteSpace s))).
  pose proof (dropWhile_length isWhiteSpace s).
  rewrite length_rev in *. lia.
Qed.

Lemma dropWhile_prefix {A} (p : A -> bool) (a l : list A) :
  Forall (fun x => p x = true) a -> dropWhile p (a ++ l) = dropWhile p l.
Proof. induction 1 as [|x a Hx _ IH]; simpl; [reflexivity|]. now rewrite Hx. Qed.

Lemma trimStart_app_nonspace (s b : jsstring) :
  trimStart s <> [] -> trimStart (s ++ b) = trimStart s ++ b.
Proof.
  unfold trimStart. induction s as [|x s IH]; simpl; [congruence|].
  destruct (isWhiteSpace x); [exact IH | reflexivity].
Qed.

Lemma trimEnd_suffix (s b : jsstring) :
  Forall (fun c => isWhiteSpace c = true) b -> trimEnd (s ++ b) = trimEnd s.
Proof.
  intros Hb. unfold trimEnd. rewrite rev_app_distr.
  rewrite dropWhile_prefix; [reflexivity|]. now apply Forall_rev.
Qed.

Lemma trimStart_all_space (s : jsstring) :
  Forall (fun c => isWhiteSpace c = true) s -> trimStart s = [].
Proof.
  intros H. unfold trimStart. rewrite <- (app_nil_r s). now rewrite dropWhile_prefix.
Qed.

Lemma trimStart_spaces (s : jsstring) :
  trimStart s = [] -> Forall (fun c => isWhiteSpace c = true) s.
Proof.
  unfold trimStart. induction s as [|x s IH]; simpl; [constructor|].
  destruct (isWhiteSpace x) eqn:Hx; [|discriminate]. intros H. constructor; auto.
Qed.

(** White space around a string does not count for [trim]. *)
Lemma trim_surrounded (a s b : jsstring) :
  Forall (fun c => isWhiteSpace c = true) a ->
  Forall (fun c => isWhiteSpace c = true) b ->
  trim (a ++ s ++ b) = trim s.
Proof.
  intros Ha Hb. unfold trim. unfold trimStart at 1.
  rewrite (dropWhile_prefix _ a _ Ha). fold (trimStart (s ++ b)).
  destruct (trimStart s) as [|x u] eqn:Hs.
  - pose proof (trimStart_spaces s Hs) as Hall.
    rewrite trimStart_all_space; [reflexivity|]. apply Forall_app. now split.
  - rewrite trimStart_app_nonspace by congruence. rewrite Hs.
    now apply trimEnd_suffix.
Qed.

(** X4.  A slug is made of lower-case letters a-z, digits and hyphens only,
    and never has two hyphens in a row. *)
Theorem X4_slug_alphabet (title : jsstring) :
  Forall (fun c => slugChar c = true) (generateSlug title) /\
  noRepeat (isChar "-") (generateSlug title) = true.
Proof.
  split; [apply generateSlug_chars|].
  rewrite generateSlug_stages.
  apply collapse_noRepeat.
Qed.

(** X5.  The slug does not see the case of the title nor the white space
    around it: lowercasing the title, trimming it, or putting white space
    before and behind it gives the same slug. *)
Theorem X5_slug_ignores_case_and_margins :
  (forall title, generateSlug (toLowerCase title) = generateSlug title) /\
  (forall title, generateSlug (trim title) = generateSlug title) /\
  (forall a title b,
      Forall (fun c => isWhiteSpace c = true) a ->
      Forall (fun c => isWhiteSpace c = true) b ->
      generateSlug (a ++ title ++ b) = generateSlug title).
Proof.
  split; [|split].
  - intros title. unfold generateSlug.
    now rewrite trim_toLowerCase, toLowerCase_idem.
  - apply generateSlug_trim.
  - intros a title b Ha Hb. unfold generateSlug. now rewrite trim_surrounded.
Qed.

Lemma X5_slug_ignores_case_and_margins_witness :
  generateSlug (js "  " ++ js "Tech Meetup" ++ js " ") = generateSlug (js "Tech Meetup").
Proof.
  apply (proj2 (proj2 X5_slug_ignores_case_and_margins));
    repeat constructor.
Defined.

(** X6.  A slug is never longer than its title. *)
Theorem X6_slug_not_longer (title : jsstring) :
  length (generateSlug title) <= length title.
Proof.
  rewrite generateSlug_stages.
  eapply Nat.le_trans; [apply collapse_length|].
  eapply Nat.le_trans; [apply collapse_length|].
  eapply Nat.le_trans; [apply filter_length_le|].
  unfold toLowerCase. rewrite length_map. apply trim_length.
Qed.

Lemma filter_nil_iff {A} (f : A -> bool) (l : list A) :
  filter f l = [] <-> Forall (fun x => f x = false) l.
Proof.
  induction l as [|x l IH]; simpl; [split; [constructor | reflexivity]|].
  destruct (f x) eqn:Hx; split; intros H.
  - discriminate.
  - inversion H; congruence.
  - constructor; [exact Hx | now apply IH].
  - inversion H; now apply IH.
Qed.

(** X7.  The slug is empty exactly when no character of the trimmed title
    is, once lowercased, a letter a-z, a digit, a hyphen or white space; a
    title that holds a letter a-z or A-Z or a digit never has an empty
    slug. *)
Theorem X7_empty_slug :
  (forall title,
      generateSlug title = [] <->
      Forall (fun c => notSlugChar (lower c) = true) (trim title)) /\
  (forall title c,
      In c title -> Spec.alphanumeric c = true -> generateSlug title <> []).
Proof.
  assert (H1 : forall title,
             generateSlug title = [] <->
             Forall (fun c => notSlugChar (lower c) = true) (trim title)).
  { intros title. rewrite generateSlug_stages.
    etransitivity; [apply collapse_nil|].
    etransitivity; [apply collapse_nil|].
    etransitivity; [apply filter_nil_iff|].
    unfold toLowerCase. rewrite Forall_map.
    split; apply Forall_impl; intros c Hc.
    - now apply negb_false_iff in Hc.
    - now rewrite Hc. }
  split; [exact H1|].
  intros title c Hin Hc Hnil. apply H1 in Hnil.
  assert (Hns : isWhiteSpace c = false) by (revert Hc; each_char c; (reflexivity || discriminate)).
  assert (Hk : notSlugChar (lower c) = false) by (revert Hc; each_char c; (reflexivity || discriminate)).
  assert (Hin' : In c (trim title)).
  { unfold trim, trimEnd, trimStart. apply -> in_rev.
    assert (Hkeep : forall l, In c l -> In c (dropWhile isWhiteSpace l)).
    { induction l as [|x l IH]; simpl; [tauto|].
      destruct (isWhiteSpace x) eqn:Hx; [|intros Hl; exact Hl].
      intros [-> | Hl]; [congruence | auto]. }
    apply Hkeep. apply -> in_rev. now apply Hkeep. }
  rewrite Forall_forall in Hnil. specialize (Hnil c Hin'). congruence.
Qed.

Lemma X7_empty_slug_witness : generateSlug (js "?? a ??") <> [].
Proof.
  apply (proj2 X7_empty_slug (js "?? a ??") "a"%char); [|reflexivity].
  simpl. tauto.
Defined.

(** X8.  The schema validator of [agenda] and [tags] gives the same answer
    on a list and on the list as the hook trims it. *)
Theorem X8_validator_stable_under_trimming (value : list jsstring) :
  nonEmptyItems (map trim value) = nonEmptyItems value.
Proof.
  unfold nonEmptyItems. rewrite length_map. f_equal.
  induction value as [|item value IH]; simpl; [reflexivity|].
  now rewrite trim_idem, IH.
Qed.

(* ===================================================================== *)
(** * More on the time *)
(* ===================================================================== *)

Lemma range_spec (lo hi c : ascii) :
  range lo hi c = true -> (code lo <= code c <= code hi)%N.
Proof.
  unfold range. intros H. apply andb_prop in H. destruct H as [H1 H2].
  apply N.leb_le in H1, H2. now split.
Qed.

Lemma isChar_code (a c : ascii) : isChar a c = true -> code c = code a.
Proof. intros H. now rewrite (isChar_eq a c H). Qed.

Lemma two_digits_printed (a b : ascii) :
  isDigit a = true -> isDigit b = true -> pad 2 (numberOf [a; b]) = [a; b].
Proof.
  intros Ha. each_char a; try discriminate Ha; clear Ha;
    intros Hb; each_char b; try discriminate Hb; reflexivity.
Qed.

Lemma numberOf_two (a b : ascii) :
  numberOf [a; b] = (10 * (Z.of_N (code a) - 48) + (Z.of_N (code b) - 48))%Z.
Proof. cbn [numberOf length]. change (10 ^ Z.of_nat 1)%Z with 10%Z.
       change (10 ^ Z.of_nat 0)%Z with 1%Z. lia. Qed.

Lemma all_below (n : nat) (P : Z -> bool) :
  forallb P (map Z.of_nat (seq 0 n)) = true ->
  forall z, (0 <= z < Z.of_nat n)%Z -> P z = true.
Proof.
  intros H z Hz. rewrite forallb_forall in H. apply H.
  apply in_map_iff. exists (Z.to_nat z). split; [lia|].
  apply in_seq. lia.
Qed.

(** X9.  The time pattern accepts exactly the times of the day written with
    two digits each: the strings HH:MM where HH prints an hour from 0 to 23
    and MM a minute from 0 to 59. *)
Theorem X9_time_pattern_is_clock_time (s : jsstring) :
  test timeRegex s = true <->
  exists h m, (0 <= h <= 23)%Z /\ (0 <= m <= 59)%Z /\
              s = pad 2 h ++ js ":" ++ pad 2 m.
Proof.
  rewrite test_timeRegex. split.
  - intros Hs.
    destruct s as [|h1 [|h2 [|c [|m1 [|m2 [|x s]]]]]]; try discriminate Hs.
    cbn [isHHMM] in Hs.
    apply andb_prop in Hs. destruct Hs as [Hs Hm2].
    apply andb_prop in Hs. destruct Hs as [Hs Hm1].
    apply andb_prop in Hs. destruct Hs as [Hh Hc].
    apply isChar_eq in Hc. subst c.
    exists (numberOf [h1; h2]), (numberOf [m1; m2]).
    assert (Hh2 : isDigit h2 = true /\ isDigit h1 = true /\
                  (0 <= numberOf [h1; h2] <= 23)%Z).
    { rewrite numberOf_two. apply orb_prop in Hh.
      destruct Hh as [Hh | Hh]; apply andb_prop in Hh; destruct Hh as [Ha Hb].
      - pose proof (range_spec _ _ _ Ha) as Ra.
        pose proof (range_spec _ _ _ Hb) as Rb.
        change (code "0") with 48%N in *. change (code "1") with 49%N in *.
        change (code "9") with 57%N in *.
        split; [exact Hb|]. split; [|lia].
        unfold isDigit, range. change (code "0") with 48%N.
        change (code "9") with 57%N.
        apply andb_true_intro; split; apply N.leb_le; lia.
      - pose proof (isChar_code _ _ Ha) as Ra.
        pose proof (range_spec _ _ _ Hb) as Rb.
        change (code "0") with 48%N in *. change (code "2") with 50%N in *.
        change (code "3") with 51%N in *.
        split; [|split; [|lia]]; unfold isDigit, range;
          change (code "0") with 48%N; change (code "9") with 57%N;
          apply andb_true_intro; split; apply N.leb_le; lia. }
    destruct Hh2 as (Dh2 & Dh1 & Bh).
    assert (Hm : isDigit m1 = true /\ (0 <= numberOf [m1; m2] <= 59)%Z).
    { rewrite numberOf_two.
      pose proof (range_spec _ _ _ Hm1) as Ra.
      pose proof (range_spec _ _ _ Hm2) as Rb.
      change (code "0") with 48%N in *. change (code "5") with 53%N in *.
      change (code "9") with 57%N in *.
      split; [|lia]. unfold isDigit, range. change (code "0") with 48%N.
      change (code "9") with 57%N.
      apply andb_true_intro; split; apply N.leb_le; lia. }
    destruct Hm as (Dm1 & Bm).
    split; [exact Bh|]. split; [exact Bm|].
    now rewrite !two_digits_printed.
  - intros (h & m & Hh & Hm & ->).
    assert (Hall : forallb
              (fun h => forallb
                 (fun m => isHHMM (pad 2 h ++ js ":" ++ pad 2 m))
                 (map Z.of_nat (seq 0 60)))
              (map Z.of_nat (seq 0 24)) = true) by (vm_compute; reflexivity).
    pose proof (all_below 24 _ Hall h ltac:(lia)) as Hrow.
    exact (all_below 60 _ Hrow m ltac:(lia)).
Qed.

(* ===================================================================== *)
(** * More on the date: printing and parsing back *)
(* ===================================================================== *)

Section DateRoundTrip.

Local Open Scope Z_scope.

Lemma Day_range (t : Z) :
  inTimeRange t -> -100000000 <= Day t <= 100000000.
Proof.
  unfold inTimeRange, Day, msPerDay. intros H. Z.div_mod_to_equations. lia.
Qed.

Lemma YearFromTime_range (t : Z) :
  inTimeRange t -> -271821 <= YearFromTime t <= 275760.
Proof.
  intros H. apply Day_range in H. unfold YearFromTime.
  pose proof (YearFromDay_spec (Day t)) as [Hlo Hhi].
  split.
  - destruct (Z_le_gt_dec (-271821) (YearFromDay (Day t))) as [?|Hy]; [assumption|].
    pose proof (DayFromYear_mono (YearFromDay (Day t) + 1) (-271821) ltac:(lia)) as Hm.
    assert (DayFromYear (-271821) < -100000000) by (vm_compute; reflexivity). lia.
  - destruct (Z_le_gt_dec (YearFromDay (Day t)) 275760) as [?|Hy]; [assumption|].
    pose proof (DayFromYear_mono 275761 (YearFromDay (Day t)) ltac:(lia)) as Hm.
    assert (100000000 < DayFromYear 275761) by (vm_compute; reflexivity). lia.
Qed.

Lemma digits_numberOf (s : jsstring) :
  forall acc rest,
    Forall (fun c => isDigit c = true) s ->
    digits (length s) acc (s ++ rest) =
    Some (acc * 10 ^ Z.of_nat (length s) + numberOf s, rest).
Proof.
  induction s as [|c s IH]; intros acc rest Hs.
  - simpl. f_equal. f_equal. lia.
  - inversion Hs as [|c' s' Hc Hs']; subst.
    cbn [length digits app numberOf]. rewrite Hc, IH by assumption.
    f_equal. f_equal. rewrite Nat2Z.inj_succ, Z.pow_succ_r by lia. lia.
Qed.

Lemma digits_pad (k : nat) (n : Z) (rest : jsstring) :
  0 <= n < 10 ^ Z.of_nat (S k) ->
  digits (S k) 0 (pad (S k) n ++ rest) = Some (n, rest).
Proof.
  intros Hn. pose proof (pad_length k n Hn) as Hl.
  rewrite <- Hl at 1. rewrite digits_numberOf by (apply pad_digits; lia).
  rewrite pad_value by lia. reflexivity.
Qed.

Lemma pad_head_digit (k : nat) (n : Z) :
  0 <= n < 10 ^ Z.of_nat (S k) ->
  exists c s, pad (S k) n = c :: s /\ isDigit c = true.
Proof.
  intros Hn. pose proof (pad_length k n Hn) as Hl.
  pose proof (pad_digits (S k) n ltac:(lia)) as Hd.
  destruct (pad (S k) n) as [|c s]; [discriminate Hl|].
  exists c, s. split; [reflexivity|]. now inversion Hd.
Qed.

Lemma digit_no_sign (c : ascii) :
  isDigit c = true -> isChar "+" c = false /\ isChar "-" c = false.
Proof. each_char c; (discriminate || (intros _; split; reflexivity)). Qed.

(** The year as [toISOString] prints it parses back to the year. *)
Lemma parseYear_yearString (y : Z) (rest : jsstring) :
  -999999 <= y <= 999999 ->
  parseYear (yearString y ++ rest) = Some (y, rest).
Proof.
  intros Hy. unfold yearString, parseYear.
  destruct ((0 <=? y) && (y <=? 9999)) eqn:Hr.
  - apply andb_prop in Hr. destruct Hr as [H0 H9].
    apply Z.leb_le in H0, H9.
    assert (Hb : 0 <= y < 10 ^ Z.of_nat 4) by (simpl; lia).
    destruct (pad_head_digit 3 y Hb) as (c & s & Hp & Hc).
    destruct (digit_no_sign c Hc) as [Hplus Hminus].
    assert (Hs1 : startsWith "+" (pad 4 y ++ rest) = false)
      by (rewrite Hp; exact Hplus).
    assert (Hs2 : startsWith "-" (pad 4 y ++ rest) = false)
      by (rewrite Hp; exact Hminus).
    rewrite Hs1, Hs2. apply (digits_pad 3 y rest Hb).
  - assert (Hb : 0 <= Z.abs y < 10 ^ Z.of_nat 6) by (simpl; lia).
    destruct (Z.ltb_spec y 0) as [Hneg|Hpos].
    + change (js "-") with ["-"%char]. cbn [app startsWith tl].
      change (isChar "+" "-") with false. change (isChar "-" "-") with true.
      cbn iota. rewrite (digits_pad 5 (Z.abs y) rest Hb).
      destruct (Z.eqb_spec (Z.abs y) 0) as [H0|H0]; [lia|].
      f_equal. f_equal. lia.
    + change (js "+") with ["+"%char]. cbn [app startsWith tl].
      change (isChar "+" "+") with true. cbn iota.
      rewrite (digits_pad 5 (Z.abs y) rest Hb). f_equal. f_equal. lia.
Qed.

Lemma DateFromTime_in_month (t : Z) :
  DateFromTime t <= DaysInMonth (YearFromTime t) (MonthFromTime t).
Proof.
  pose proof (DayWithinYear_bounds t) as Hd.
  unfold DateFromTime, DaysInMonth, MonthFromTime.
  fold (InLeapYear t). pose proof (InLeapYear_cases t) as Hl.
  repeat match goal with
         | |- context [if ?a <? ?b then _ else _] =>
             destruct (Z.ltb_spec a b)
         end;
    repeat match goal with
           | |- context [monthStart (?a + 1) _] =>
               let v := eval compute in (a + 1) in change (a + 1) with v
           end; cbn [monthStart]; lia.
Qed.

Lemma MakeDay_of_time (t : Z) :
  MakeDay (YearFromTime t) (MonthFromTime t) (DateFromTime t) = Day t.
Proof.
  pose proof (MonthFromTime_bounds t) as Hm.
  unfold MakeDay. rewrite Z.div_small, Z.mod_small by lia.
  rewrite Z.add_0_r. fold (InLeapYear t).
  unfold DateFromTime, DayWithinYear. lia.
Qed.

Lemma parseMonthDay_printed (t : Z) :
  parseMonthDay (YearFromTime t)
    (js "-" ++ pad 2 (MonthFromTime t + 1) ++ js "-" ++ pad 2 (DateFromTime t))
  = Some (MonthFromTime t + 1, DateFromTime t, []).
Proof.
  pose proof (MonthFromTime_bounds t) as Hm.
  pose proof (DateFromTime_bounds t) as Hd.
  pose proof (DateFromTime_in_month t) as Hdm.
  unfold parseMonthDay. change (js "-") with ["-"%char].
  cbn [app startsWith tl]. change (isChar "-" "-") with true. cbn iota.
  rewrite (digits_pad 1 (MonthFromTime t + 1)) by (simpl; lia).
  replace ((1 <=? MonthFromTime t + 1) && (MonthFromTime t + 1 <=? 12)) with true
    by (symmetry; apply andb_true_intro; split; apply Z.leb_le; lia).
  cbn [startsWith tl]. change (isChar "-" "-") with true. cbn iota.
  rewrite <- (app_nil_r (pad 2 (DateFromTime t))).
  rewrite (digits_pad 1 (DateFromTime t)) by (simpl; lia).
  replace (MonthFromTime t + 1 - 1) with (MonthFromTime t) by lia.
  replace ((1 <=? DateFromTime t) &&
           (DateFromTime t <=? DaysInMonth (YearFromTime t) (MonthFromTime t)))
    with true
    by (symmetry; apply andb_true_intro; split; apply Z.leb_le; lia).
  reflexivity.
Qed.

(** The date part of an ISO string parses, in every engine, to the start of
    its day. *)
Lemma parseISO_datePortion (E : Engine) (t : Z) :
  inTimeRange t -> parseISO E (datePortion t) = Some (Day t * msPerDay).
Proof.
  intros Ht. pose proof (YearFromTime_range t Ht) as Hy.
  unfold parseISO, datePortion.
  rewrite parseYear_yearString by lia.
  rewrite parseMonthDay_printed.
  replace (MonthFromTime t + 1 - 1) with (MonthFromTime t) by lia.
  rewrite MakeDay_of_time. unfold MakeDate. f_equal. lia.
Qed.

End DateRoundTrip.

Section StoredDate.

Local Open Scope Z_scope.

Lemma dateChar_plain (c : ascii) :
  dateChar c = true -> isChar "T" c = false /\ isWhiteSpace c = false.
Proof. each_char c; (discriminate || (intros _; split; reflexivity)). Qed.

Lemma pad_dateChars (w : nat) (n : Z) :
  0 <= n -> Forall (fun c => dateChar c = true) (pad w n).
Proof.
  intros Hn. eapply Forall_impl; [|apply (pad_digits w n Hn)].
  intros c Hc. unfold dateChar. now rewrite Hc.
Qed.

Lemma datePortion_chars (t : Z) :
  Forall (fun c => dateChar c = true) (datePortion t).
Proof.
  pose proof (MonthFromTime_bounds t) as Hm.
  pose proof (DateFromTime_bounds t) as Hd.
  assert (Hh : Forall (fun c => dateChar c = true) (js "-"))
    by (repeat constructor).
  unfold datePortion.
  apply Forall_app; split; [|apply Forall_app; split; [exact Hh|
    apply Forall_app; split; [apply pad_dateChars; lia|
    apply Forall_app; split; [exact Hh | apply pad_dateChars; lia]]]].
  unfold yearString.
  destruct ((0 <=? YearFromTime t) && (YearFromTime t <=? 9999)) eqn:Hr.
  - apply andb_prop in Hr. destruct Hr as [Hy0 _]. apply Z.leb_le in Hy0.
    now apply pad_dateChars.
  - apply Forall_app. split; [|apply pad_dateChars; lia].
    destruct (YearFromTime t <? 0); repeat constructor.
Qed.

Lemma takeWhile_stop {A} (p : A -> bool) (l : list A) (x : A) (rest : list A) :
  Forall (fun a => p a = true) l -> p x = false ->
  takeWhile p (l ++ x :: rest) = l.
Proof.
  intros Hl Hx. induction Hl as [|a l Ha _ IH]; simpl; [now rewrite Hx|].
  now rewrite Ha, IH.
Qed.

(** What the hook keeps of the ISO string is its date part. *)
Lemma splitHead_toISOString (t : Z) :
  splitHead "T" (toISOString t) = datePortion t.
Proof.
  unfold splitHead, toISOString.
  change (js "T") with ["T"%char]. rewrite !app_assoc.
  rewrite <- !app_assoc.
  replace (yearString (YearFromTime t) ++ js "-" ++ pad 2 (MonthFromTime t + 1) ++
           js "-" ++ pad 2 (DateFromTime t) ++ ["T"%char] ++ pad 2 (HourFromTime t) ++
           js ":" ++ pad 2 (MinFromTime t) ++ js ":" ++ pad 2 (SecFromTime t) ++
           js "." ++ pad 3 (msFromTime t) ++ js "Z")
    with (datePortion t ++ "T"%char :: (pad 2 (HourFromTime t) ++
           js ":" ++ pad 2 (MinFromTime t) ++ js ":" ++ pad 2 (SecFromTime t) ++
           js "." ++ pad 3 (msFromTime t) ++ js "Z"))
    by (unfold datePortion; now rewrite <- !app_assoc).
  apply takeWhile_stop; [|reflexivity].
  eapply Forall_impl; [|apply datePortion_chars].
  intros c Hc. simpl. now rewrite (proj1 (dateChar_plain c Hc)).
Qed.

Lemma datePortion_trim (t : Z) : trim (datePortion t) = datePortion t.
Proof.
  apply trim_no_space. eapply Forall_impl; [|apply datePortion_chars].
  intros c Hc. exact (proj2 (dateChar_plain c Hc)).
Qed.

Lemma datePortion_length (t : Z) :
  inTimeRange t ->
  length (datePortion t) =
  if (0 <=? YearFromTime t) && (YearFromTime t <=? 9999) then 10%nat else 13%nat.
Proof.
  intros Ht. pose proof (YearFromTime_range t Ht) as Hy.
  pose proof (MonthFromTime_bounds t) as Hm.
  pose proof (DateFromTime_bounds t) as Hd.
  unfold datePortion, yearString. rewrite !length_app.
  rewrite (pad_length 1 (MonthFromTime t + 1)) by (simpl; lia).
  rewrite (pad_length 1 (DateFromTime t)) by (simpl; lia).
  destruct ((0 <=? YearFromTime t) && (YearFromTime t <=? 9999)) eqn:Hr.
  - apply andb_prop in Hr. destruct Hr as [Hy0 Hy9]. apply Z.leb_le in Hy0, Hy9.
    rewrite (pad_length 3 (YearFromTime t)) by (simpl; lia). reflexivity.
  - rewrite length_app.
    rewrite (pad_length 5 (Z.abs (YearFromTime t))) by (simpl; lia).
    destruct (YearFromTime t <? 0); reflexivity.
Qed.

Lemma datePortion_of_day (t t' : Z) :
  Day t = Day t' -> datePortion t = datePortion t'.
Proof.
  intros H. unfold datePortion, DateFromTime, MonthFromTime, DayWithinYear,
    InLeapYear, YearFromTime. now rewrite H.
Qed.

Lemma Day_of_midnight (t : Z) : Day (Day t * msPerDay) = Day t.
Proof. unfold Day at 1. apply Z.div_mul. discriminate. Qed.

Lemma midnight_inTimeRange (t : Z) : inTimeRange t -> inTimeRange (Day t * msPerDay).
Proof.
  unfold inTimeRange, Day, msPerDay. intros H. Z.div_mod_to_equations. lia.
Qed.

Lemma Date_getTime_range (E : Engine) (s : jsstring) (t : Z) :
  Date_getTime E s = Some t -> inTimeRange t.
Proof.
  unfold Date_getTime, TimeClip, inTimeRange.
  destruct (Date_parse E s) as [v|]; [|discriminate].
  destruct (Z.leb_spec (Z.abs v) 8640000000000000) as [Hv|Hv]; [|discriminate].
  intros Heq; injection Heq as <-. exact Hv.
Qed.

(** The stored date is accepted again by every engine, as the midnight that
    starts its day. *)
Lemma Date_getTime_datePortion (E : Engine) (t : Z) :
  inTimeRange t -> Date_getTime E (datePortion t) = Some (Day t * msPerDay).
Proof.
  intros Ht. unfold Date_getTime, Date_parse.
  rewrite (parseISO_datePortion E t Ht). unfold TimeClip.
  pose proof (midnight_inTimeRange t Ht) as Hm. unfold inTimeRange in Hm.
  apply Z.leb_le in Hm. now rewrite Hm.
Qed.

Lemma preSave_parsed_range (E : Engine) (d : EventDocument) (t : Z) :
  parsedDate E d = Some t -> inTimeRange t.
Proof.
  unfold parsedDate. destruct (trimmed (date d)); [|discriminate].
  apply Date_getTime_range.
Qed.

End StoredDate.

Lemma preSave_date_portion (E : Engine) (d : EventDocument) :
  snd (preSave E d) = None ->
  exists t, parsedDate E d = Some t /\
            date (fst (preSave E d)) = Some (datePortion t) /\
            inTimeRange t.
Proof.
  intros Hok. destruct (preSave_ok E d Hok) as (t & m & _ & Hd & _ & ->).
  exists t. split; [exact Hd|]. split.
  - unfold normalized. cbn [date]. now rewrite splitHead_toISOString.
  - eapply preSave_parsed_range; eassumption.
Qed.

(** X10.  The date a successful run stores is the year, month and day (UTC)
    of the parsed instant, written with digits, hyphens and at most a plus
    sign: ten characters when the year is from 0 to 9999, thirteen
    otherwise. *)
Theorem X10_stored_date_shape (E : Engine) (d : EventDocument) :
  snd (preSave E d) = None ->
  exists t,
    parsedDate E d = Some t /\
    date (fst (preSave E d)) = Some (datePortion t) /\
    Forall (fun c => dateChar c = true) (datePortion t) /\
    length (datePortion t) =
    if ((0 <=? YearFromTime t) && (YearFromTime t <=? 9999))%Z then 10 else 13.
Proof.
  intros Hok. destruct (preSave_date_portion E d Hok) as (t & Hd & Hs & Ht).
  exists t. split; [exact Hd|]. split; [exact Hs|]. split.
  - apply datePortion_chars.
  - now apply datePortion_length.
Qed.

Lemma X10_stored_date_shape_witness :
  exists t,
    parsedDate utcEngine
      (sampleEvent (js "Tech Meetup") None (js "2024-03-05T23:30:00-05:00")
                   (js "09:05") false) = Some t /\
    date (fst (preSave utcEngine
      (sampleEvent (js "Tech Meetup") None (js "2024-03-05T23:30:00-05:00")
                   (js "09:05") false))) = Some (datePortion t) /\
    Forall (fun c => dateChar c = true) (datePortion t) /\
    length (datePortion t) =
    if ((0 <=? YearFromTime t) && (YearFromTime t <=? 9999))%Z then 10 else 13.
Proof.
  apply X10_stored_date_shape. reflexivity.
Defined.

(** X11.  Read back, the stored date is the midnight (UTC) that starts the
    day of the parsed instant, in every engine: a multiple of a day, at most
    the instant and less than a day before it. *)
Theorem X11_stored_date_is_utc_day (E : Engine) (d : EventDocument) :
  snd (preSave E d) = None ->
  exists t t',
    parsedDate E d = Some t /\
    parsedDate E (fst (preSave E d)) = Some t' /\
    (t' mod msPerDay = 0 /\ t' <= t < t' + msPerDay)%Z.
Proof.
  intros Hok. destruct (preSave_date_portion E d Hok) as (t & Hd & Hs & Ht).
  exists t, (Day t * msPerDay)%Z. split; [exact Hd|]. split.
  - unfold parsedDate, trimmed. rewrite Hs. cbn [option_map].
    rewrite datePortion_trim. now apply Date_getTime_datePortion.
  - unfold Day, msPerDay. split; [apply Z.mod_mul; discriminate|].
    Z.div_mod_to_equations. lia.
Qed.

Lemma X11_stored_date_is_utc_day_witness :
  exists t t',
    parsedDate utcEngine
      (sampleEvent (js "Tech Meetup") None (js "2024-03-05T23:30:00-05:00")
                   (js "09:05") false) = Some t /\
    parsedDate utcEngine
      (fst (preSave utcEngine
         (sampleEvent (js "Tech Meetup") None (js "2024-03-05T23:30:00-05:00")
                      (js "09:05") false))) = Some t' /\
    (t' mod msPerDay = 0 /\ t' <= t < t' + msPerDay)%Z.
Proof.
  apply X11_stored_date_is_utc_day. reflexivity.
Defined.

(* ===================================================================== *)
(** * Saving twice *)
(* ===================================================================== *)

Section SavingTwice.

Variable E : Engine.

Lemma trimmed_idem (v : option jsstring) : trimmed (trimmed v) = trimmed v.
Proof. destruct v as [v|]; simpl; [now rewrite trim_idem | reflexivity]. Qed.

Lemma present_trimmed (v : option jsstring) : present (trimmed v) = present v.
Proof. destruct v as [v|]; simpl; [now rewrite trim_idem | reflexivity]. Qed.

Lemma map_trim_idem (l : list jsstring) : map trim (map trim l) = map trim l.
Proof. rewrite map_map. apply map_ext. intros a. apply trim_idem. Qed.

Lemma trimmedItems_idem (a : option Items) :
  trimmedItems (trimmedItems a) = trimmedItems a.
Proof.
  destruct a as [l|]; simpl; [|reflexivity]. f_equal. rewrite map_map.
  apply map_ext. intros [x|]; simpl; [now rewrite trim_idem | reflexivity].
Qed.

Lemma isStrings_trimmed (a : option Items) :
  isStrings (trimmedItems a) = isStrings a.
Proof.
  destruct a as [l|]; [|reflexivity]. simpl.
  induction l as [|[x|] l IH]; simpl; auto.
Qed.

Lemma present_datePortion (t : Z) :
  inTimeRange t -> present (Some (datePortion t)) = true.
Proof.
  intros Ht. simpl. rewrite datePortion_trim, (datePortion_length t Ht).
  now destruct ((0 <=? YearFromTime t)%Z && (YearFromTime t <=? 9999)%Z).
Qed.

(** On the document a successful run leaves, the assignments of a second
    run change no value, hence no tracking. *)
Lemma tracked_normalized (d : EventDocument) (t : Z) (m : MatchResult)
  (tm : jsstring) :
  time d = Some tm ->
  ToString (group 1 m) ++ js ":" ++ ToString (group 2 m) = trim tm ->
  tracked (normalized d t m) (Day t * msPerDay)%Z m
  = isModified (normalized d t m).
Proof.
  intros Etm Hreb. unfold tracked.
  change (title (normalized d t m)) with (trimmed (title d)).
  change (description (normalized d t m)) with (trimmed (description d)).
  change (overview (normalized d t m)) with (trimmed (overview d)).
  change (image (normalized d t m)) with (trimmed (image d)).
  change (venue (normalized d t m)) with (trimmed (venue d)).
  change (location (normalized d t m)) with (trimmed (location d)).
  change (mode (normalized d t m)) with (trimmed (mode d)).
  change (audience (normalized d t m)) with (trimmed (audience d)).
  change (organizer (normalized d t m)) with (trimmed (organizer d)).
  change (agenda (normalized d t m)) with (trimmedItems (agenda d)).
  change (tags (normalized d t m)) with (trimmedItems (tags d)).
  change (date (normalized d t m))
    with (Some (splitHead "T" (toISOString t))).
  change (time (normalized d t m))
    with (Some (ToString (group 1 m) ++ js ":" ++ ToString (group 2 m))).
  rewrite Hreb, !splitHead_toISOString.
  rewrite (datePortion_of_day _ t (Day_of_midnight t)).
  rewrite !trimmed_idem, !trimmedItems_idem, !sameValue_refl, !sameArray_refl.
  unfold trimmed. cbn [option_map].
  rewrite !trim_idem, !datePortion_trim, !sameValue_refl. reflexivity.
Qed.

(** The document a successful run leaves passes the hook again, unchanged. *)
Lemma normalized_fixed (d : EventDocument) (t : Z) (m : MatchResult) :
  allPresent d = true -> stringArrays d = true ->
  parsedDate E d = Some t -> timeMatch d = Some m ->
  preSave E (normalized d t m) = (normalized d t m, None).
Proof.
  intros Hp Ha Hd Hm.
  pose proof (preSave_parsed_range E d t Hd) as Ht.
  pose proof (allPresent_time d Hp) as Htime.
  destruct (time d) as [tm|] eqn:Etm; [|discriminate Htime].
  rewrite (timeMatch_exec d tm Etm) in Hm.
  pose proof (time_rebuild _ _ Hm) as Hreb.
  assert (Hstep : preSave E (normalized d t m) =
                  (normalized (normalized d t m) (Day t * msPerDay)%Z m, None)).
  { apply preSave_ok_intro.
    - unfold allPresent in *. cbn [forallb requiredStringFields] in *.
      unfold normalized. cbn [get title description overview image venue
        location date time mode audience organizer] in *.
      rewrite !present_trimmed, splitHead_toISOString, Hreb.
      rewrite (present_datePortion t Ht).
      change (Some (trim tm)) with (trimmed (Some tm)).
      rewrite present_trimmed. rewrite Etm in Hp.
      assert (Hpd : present (date d) = true).
      { pose proof Hp as Hq.
        do 6 (apply andb_prop in Hq; destruct Hq as [_ Hq]).
        apply andb_prop in Hq. now destruct Hq. }
      rewrite Hpd in Hp. exact Hp.
    - unfold stringArrays, normalized in *. cbn [agenda tags].
      now rewrite !isStrings_trimmed.
    - unfold parsedDate, normalized, trimmed. cbn [date option_map].
      rewrite splitHead_toISOString, datePortion_trim.
      now apply Date_getTime_datePortion.
    - unfold timeMatch, normalized, trimmed. cbn [time option_map].
      now rewrite Hreb, !trim_idem. }
  rewrite Hstep. f_equal.
  pose proof (tracked_normalized d t m tm Etm Hreb) as Htr.
  assert (Hdue : slugDue (normalized d t m) (Day t * msPerDay)%Z m = true ->
                 slugDue d t m = true).
  { unfold slugDue at 1. rewrite Htr. unfold normalized. cbn [isModified slug].
    destruct (slugDue d t m) eqn:Hc; [reflexivity|].
    unfold slugDue in Hc. now rewrite Hc. }
  unfold normalized at 1. rewrite Htr.
  change (title (normalized d t m)) with (trimmed (title d)).
  change (description (normalized d t m)) with (trimmed (description d)).
  change (overview (normalized d t m)) with (trimmed (overview d)).
  change (image (normalized d t m)) with (trimmed (image d)).
  change (venue (normalized d t m)) with (trimmed (venue d)).
  change (location (normalized d t m)) with (trimmed (location d)).
  change (mode (normalized d t m)) with (trimmed (mode d)).
  change (audience (normalized d t m)) with (trimmed (audience d)).
  change (organizer (normalized d t m)) with (trimmed (organizer d)).
  change (agenda (normalized d t m)) with (trimmedItems (agenda d)).
  change (tags (normalized d t m)) with (trimmedItems (tags d)).
  rewrite !trimmed_idem, !trimmedItems_idem, !splitHead_toISOString.
  rewrite (datePortion_of_day _ t (Day_of_midnight t)).
  destruct (slugDue (normalized d t m) (Day t * msPerDay)%Z m) eqn:Hn.
  - specialize (Hdue eq_refl). unfold normalized. rewrite Hdue.
    cbn [slug isModified]. rewrite sameValue_refl, splitHead_toISOString.
    reflexivity.
  - unfold normalized. rewrite splitHead_toISOString. reflexivity.
Qed.

End SavingTwice.

(** X12.  Saving is idempotent: the document a successful run of the hook
    leaves passes the hook again, in every engine, and comes out unchanged. *)
Theorem X12_hook_idempotent (E : Engine) (d : EventDocument) :
  snd (preSave E d) = None ->
  preSave E (fst (preSave E d)) = (fst (preSave E d), None).
Proof.
  intros Hok. pose proof (preSave_ok_arrays E d Hok) as Ha.
  destruct (preSave_ok E d Hok) as (t & m & Hp & Hd & Hm & ->).
  now apply normalized_fixed.
Qed.

Lemma X12_hook_idempotent_witness :
  preSave utcEngine
    (fst (preSave utcEngine
            (sampleEvent (js "  Tech Meetup 2024!! ") None
                         (js "2024-03-05T23:30:00-05:00") (js " 09:05 ") false)))
  = (fst (preSave utcEngine
            (sampleEvent (js "  Tech Meetup 2024!! ") None
                         (js "2024-03-05T23:30:00-05:00") (js " 09:05 ") false)),
     None).
Proof.
  apply X12_hook_idempotent. reflexivity.
Defined.

(* ===================================================================== *)
(** * More on the matcher: every way a pattern matches *)
(* ===================================================================== *)

Section Matches.

Lemma run_bol_in pos s caps m s' c :
  In (m, s', c) (run Bol pos s caps) <-> pos = 0 /\ m = [] /\ s' = s /\ c = caps.
Proof.
  cbn [run]. destruct (Nat.eqb_spec pos 0) as [Hp|Hp]; simpl.
  - split.
    + intros [H | []]. injection H as <- <- <-. auto.
    + intros (_ & -> & -> & ->). now left.
  - split; [tauto | intros (H & _); contradiction].
Qed.

Lemma run_eol_in pos s caps m s' c :
  In (m, s', c) (run Eol pos s caps) <-> s = [] /\ m = [] /\ s' = [] /\ c = caps.
Proof.
  cbn [run]. destruct s as [|x s]; simpl.
  - split.
    + intros [H | []]. injection H as <- <- <-. auto.
    + intros (_ & -> & -> & ->). now left.
  - split; [tauto | intros (H & _); discriminate].
Qed.

Lemma run_cls_in p pos s caps m s' c :
  In (m, s', c) (run (Cls p) pos s caps) <->
  exists x, p x = true /\ m = [x] /\ s = x :: s' /\ c = caps.
Proof.
  cbn [run].
  destruct s as [|x s];
    [simpl; split; [tauto | intros (? & _ & _ & H & _); discriminate]|].
  destruct (p x) eqn:Hx; simpl.
  - split.
    + intros [H | []]. injection H as <- <- <-. exists x. auto.
    + intros (y & Hy & -> & H & ->). injection H as <- <-. now left.
  - split; [tauto|]. intros (y & Hy & _ & H & _). injection H as <- _. congruence.
Qed.

Lemma run_cat_in r1 r2 pos s caps m s' c :
  In (m, s', c) (run (Cat r1 r2) pos s caps) <->
  exists m1 s1 c1 m2,
    In (m1, s1, c1) (run r1 pos s caps) /\
    In (m2, s', c) (run r2 (pos + length m1) s1 c1) /\ m = m1 ++ m2.
Proof.
  cbn [run]. rewrite in_flat_map. split.
  - intros ([[m1 s1] c1] & H1 & H2). apply in_map_iff in H2.
    destruct H2 as ([[m2 s2] c2] & Heq & H2). unfold consumed_more in Heq.
    injection Heq as <- <- <-. now exists m1, s1, c1, m2.
  - intros (m1 & s1 & c1 & m2 & H1 & H2 & ->).
    exists (m1, s1, c1). split; [exact H1|]. apply in_map_iff.
    now exists (m2, s', c).
Qed.

(** A run of a class matches every non-empty prefix made of the class. *)
Lemma iterate_cls_in p (fuel : nat) :
  forall pos s caps m s' c, length s < fuel ->
  (In (m, s', c) (iterate (run (Cls p)) fuel pos s caps) <->
   m <> [] /\ Forall (fun x => p x = true) m /\ s = m ++ s' /\ c = caps).
Proof.
  induction fuel as [|fuel IH]; intros pos s caps m s' c Hlen; [lia|].
  cbn [iterate]. rewrite in_flat_map. split.
  - intros ([[m1 s1] c1] & H1 & H2). apply run_cls_in in H1.
    destruct H1 as (x & Hx & -> & -> & ->). simpl in Hlen.
    apply in_app_or in H2. destruct H2 as [H2 | [H2 | []]].
    + apply in_map_iff in H2. destruct H2 as ([[m2 s2] c2] & Heq & H2).
      unfold consumed_more in Heq. injection Heq as <- <- <-.
      apply IH in H2; [|lia]. destruct H2 as (_ & Hall & -> & ->).
      split; [discriminate|]. split; [now constructor|]. now split.
    + injection H2 as <- <- <-. split; [discriminate|].
      split; [repeat constructor; exact Hx|]. now split.
  - intros (Hne & Hall & -> & ->).
    destruct m as [|x m]; [contradiction|]. inversion Hall as [|x' m' Hx Hm]; subst.
    simpl in Hlen. exists ([x], m ++ s', caps). split.
    + apply run_cls_in. exists x. auto.
    + apply in_or_app. destruct m as [|y m]; [right; now left|].
      left. apply in_map_iff. exists (y :: m, s', caps). split; [reflexivity|].
      apply IH; [lia|]. split; [discriminate|]. now split.
Qed.

Lemma run_plus_cls_in p pos s caps m s' c :
  In (m, s', c) (run (Plus (Cls p)) pos s caps) <->
  m <> [] /\ Forall (fun x => p x = true) m /\ s = m ++ s' /\ c = caps.
Proof. cbn [run]. apply iterate_cls_in. lia. Qed.

(** A pattern that starts with [^] is found exactly when it matches at
    index 0 in some way. *)
Lemma test_anchored (r : regex) (s : jsstring) :
  test (Cat Bol r) s = true <-> exists o, In o (run (Cat Bol r) 0 s []).
Proof.
  unfold test. rewrite exec_anchored.
  destruct (run (Cat Bol r) 0 s []) as [|[[m s'] c] l]; simpl.
  - split; [discriminate | intros (o & [])].
  - split; [|reflexivity]. intros _. exists (m, s', c). now left.
Qed.

End Matches.

Lemma EMAIL_REGEX_shape (s : jsstring) :
  test BookingModel.EMAIL_REGEX s = true <->
  exists l d e,
    l <> [] /\ d <> [] /\ e <> [] /\
    Forall (fun c => BookingModel.notSpaceAt c = true) (l ++ d ++ e) /\
    s = l ++ js "@" ++ d ++ js "." ++ e.
Proof.
  unfold BookingModel.EMAIL_REGEX. rewrite test_anchored. split.
  - intros ([[m s'] c] & H).
    apply run_cat_in in H. destruct H as (m0 & s0 & c0 & m1 & H0 & H & _).
    apply run_bol_in in H0. destruct H0 as (_ & -> & -> & ->).
    apply run_cat_in in H. destruct H as (l & s1 & c1 & m2 & Hl & H & _).
    apply run_plus_cls_in in Hl. destruct Hl as (Hl & Al & -> & ->).
    apply run_cat_in in H. destruct H as (a & s2 & c2 & m3 & Ha & H & _).
    apply run_cls_in in Ha. destruct Ha as (x & Hx & -> & -> & ->).
    apply isChar_eq in Hx. subst x.
    apply run_cat_in in H. destruct H as (d & s3 & c3 & m4 & Hd & H & _).
    apply run_plus_cls_in in Hd. destruct Hd as (Hd & Ad & -> & ->).
    apply run_cat_in in H. destruct H as (b & s4 & c4 & m5 & Hb & H & _).
    apply run_cls_in in Hb. destruct Hb as (y & Hy & -> & -> & ->).
    apply isChar_eq in Hy. subst y.
    apply run_cat_in in H. destruct H as (e & s5 & c5 & m6 & He & H & _).
    apply run_plus_cls_in in He. destruct He as (He & Ae & -> & ->).
    apply run_eol_in in H. destruct H as (-> & _).
    exists l, d, e. repeat split; try assumption.
    + apply Forall_app. split; [exact Al|]. apply Forall_app. now split.
    + now rewrite app_nil_r.
  - intros (l & d & e & Hl & Hd & He & Hall & ->).
    apply Forall_app in Hall. destruct Hall as [Al Hall].
    apply Forall_app in Hall. destruct Hall as [Ad Ae].
    exists (l ++ js "@" ++ d ++ js "." ++ e ++ [], [], []).
    apply run_cat_in. exists [], (l ++ js "@" ++ d ++ js "." ++ e), [], (l ++ js "@" ++ d ++ js "." ++ e ++ []).
    split; [now apply run_bol_in|]. split; [|reflexivity].
    apply run_cat_in. exists l, (js "@" ++ d ++ js "." ++ e), [], (js "@" ++ d ++ js "." ++ e ++ []).
    split; [now apply run_plus_cls_in|]. split; [|reflexivity].
    apply run_cat_in. exists (js "@"), (d ++ js "." ++ e), [], (d ++ js "." ++ e ++ []).
    split; [apply run_cls_in; exists "@"%char; auto|]. split; [|reflexivity].
    apply run_cat_in. exists d, (js "." ++ e), [], (js "." ++ e ++ []).
    split; [now apply run_plus_cls_in|]. split; [|reflexivity].
    apply run_cat_in. exists (js "."), e, [], (e ++ []).
    split; [apply run_cls_in; exists "."%char; auto|]. split; [|reflexivity].
    apply run_cat_in. exists e, [], [], [].
    split; [apply run_plus_cls_in; rewrite app_nil_r; auto|].
    split; [now apply run_eol_in | reflexivity].
Qed.

(** X13.  The email pattern accepts exactly the strings local@domain.tail
    whose three parts are not empty and hold neither white space nor an at
    sign (so an accepted address has one at sign and no white space). *)
Theorem X13_email_pattern_shape (s : jsstring) :
  test BookingModel.EMAIL_REGEX s = true <->
  exists l d e,
    l <> [] /\ d <> [] /\ e <> [] /\
    Forall (fun c => BookingModel.notSpaceAt c = true) (l ++ d ++ e) /\
    s = l ++ js "@" ++ d ++ js "." ++ e.
Proof. apply EMAIL_REGEX_shape. Qed.

(* ===================================================================== *)
(** * More on the Booking pre-save hook *)
(* ===================================================================== *)

(** X14.  The Booking hook succeeds exactly when the email is set and
    matches the pattern, the Event reference is set, and the query for that
    Event is fulfilled with an Event. *)
Theorem X14_booking_accepted_iff
  (q : BookingModel.ExistsQuery) (b : BookingModel.BookingDocument) :
  BookingModel.preSave q b = None <->
  BookingModel.emailValid b = true /\
  exists id found, BookingModel.eventId b = Some id /\
                   q id = Fulfilled (Some found).
Proof.
  destruct (BookingModel.emailValid b) eqn:Hv.
  - rewrite (booking_preSave_valid q b Hv).
    destruct (BookingModel.eventId b) as [id|].
    + destruct (q id) as [[found|]|e] eqn:Hq; split; try discriminate.
      * intros _. split; [reflexivity|]. now exists id, found.
      * reflexivity.
      * intros (_ & id' & found & Hid & Hq'). injection Hid as <-. congruence.
      * intros (_ & id' & found & Hid & Hq'). injection Hid as <-. congruence.
    + split; [discriminate|]. intros (_ & id & found & Hid & _). discriminate.
  - rewrite (booking_preSave_invalid q b Hv).
    split; [discriminate | intros (H & _); discriminate].
Qed.

(** X15.  The Booking hook reports one error, the first in the order of the
    source: an invalid email whatever the reference and the store (the store
    is not asked); else a missing Event reference; else, when the query is
    rejected, the reason of the rejection as it is. *)
Theorem X15_booking_errors_in_order
  (q : BookingModel.ExistsQuery) (b : BookingModel.BookingDocument) :
  (BookingModel.emailValid b = false ->
   forall q', BookingModel.preSave q' b =
              Some (MkError "Email must be a valid, non-empty email address.")) /\
  (BookingModel.emailValid b = true -> BookingModel.eventId b = None ->
   BookingModel.preSave q b = Some (MkError "eventId is required.")) /\
  (forall id e,
      BookingModel.emailValid b = true -> BookingModel.eventId b = Some id ->
      q id = Rejected e -> BookingModel.preSave q b = Some e).
Proof.
  split; [|split].
  - intros Hv q'. now apply booking_preSave_invalid.
  - intros Hv Hid. now rewrite (booking_preSave_valid q b Hv), Hid.
  - intros id e Hv Hid Hq. now rewrite (booking_preSave_valid q b Hv), Hid, Hq.
Qed.

Lemma X15_booking_errors_in_order_witness :
  (forall q', BookingModel.preSave q'
                (BookingModel.mkBooking None (Some (js "ada.example.org"))) =
              Some (MkError "Email must be a valid, non-empty email address.")) /\
  BookingModel.preSave (BookingModel.Event_exists [])
    (BookingModel.mkBooking None (Some (js "ada@example.org")))
  = Some (MkError "eventId is required.") /\
  BookingModel.preSave (fun _ => Rejected (MkError "connection lost"))
    (BookingModel.mkBooking (Some 9%N) (Some (js "ada@example.org")))
  = Some (MkError "connection lost").
Proof.
  split; [|split].
  - apply (proj1 (X15_booking_errors_in_order (BookingModel.Event_exists [])
                    (BookingModel.mkBooking None (Some (js "ada.example.org"))))).
    reflexivity.
  - apply (proj1 (proj2 (X15_booking_errors_in_order (BookingModel.Event_exists [])
                    (BookingModel.mkBooking None (Some (js "ada@example.org"))))));
      reflexivity.
  - apply (proj2 (proj2 (X15_booking_errors_in_order
                    (fun _ => Rejected (MkError "connection lost"))
                    (BookingModel.mkBooking (Some 9%N) (Some (js "ada@example.org")))))
             9%N); reflexivity.
Defined.

Lemma notSpaceAt_lower (c : ascii) :
  BookingModel.notSpaceAt (lower c) = BookingModel.notSpaceAt c.
Proof. each_char c; reflexivity. Qed.

Lemma notSpaceAt_not_space (c : ascii) :
  BookingModel.notSpaceAt c = true -> isWhiteSpace c = false.
Proof.
  unfold BookingModel.notSpaceAt. intros H. apply negb_true_iff in H.
  now apply orb_false_elim in H.
Qed.

Lemma accepted_email_setters (raw : jsstring) :
  test BookingModel.EMAIL_REGEX raw = true ->
  BookingModel.emailSetters raw = toLowerCase raw /\
  test BookingModel.EMAIL_REGEX (toLowerCase raw) = true.
Proof.
  intros H. apply EMAIL_REGEX_shape in H.
  destruct H as (l & d & e & Hl & Hd & He & Hall & ->).
  split.
  - unfold BookingModel.emailSetters. rewrite trim_toLowerCase. f_equal.
    apply trim_no_space.
    apply Forall_app in Hall. destruct Hall as [Al Hall].
    apply Forall_app in Hall. destruct Hall as [Ad Ae].
    repeat (apply Forall_app; split);
      try (eapply Forall_impl; [|eassumption]; apply notSpaceAt_not_space);
      repeat constructor.
  - apply EMAIL_REGEX_shape.
    exists (toLowerCase l), (toLowerCase d), (toLowerCase e).
    unfold toLowerCase. rewrite <- !map_app.
    repeat split.
    + destruct l; [contradiction | discriminate].
    + destruct d; [contradiction | discriminate].
    + destruct e; [contradiction | discriminate].
    + rewrite Forall_map. eapply Forall_impl; [|exact Hall].
      intros c Hc. simpl. now rewrite notSpaceAt_lower.
    + now rewrite !map_app.
Qed.

(** X16.  Normalizing never spoils a good address: an email the pattern
    accepts is only lowercased by the setters of the schema (there is no
    white space to trim), and the pattern accepts the result; and the
    setters leave alone what they have produced. *)
Theorem X16_setters_keep_accepted_email :
  (forall raw,
      test BookingModel.EMAIL_REGEX raw = true ->
      BookingModel.emailSetters raw = toLowerCase raw /\
      test BookingModel.EMAIL_REGEX (BookingModel.emailSetters raw) = true) /\
  (forall value,
      BookingModel.emailSetters (BookingModel.emailSetters value)
      = BookingModel.emailSetters value).
Proof.
  split.
  - intros raw H. destruct (accepted_email_setters raw H) as [H1 H2].
    split; [exact H1 | now rewrite H1].
  - intros value. unfold BookingModel.emailSetters.
    now rewrite !trim_toLowerCase, trim_idem, toLowerCase_idem.
Qed.

Lemma X16_setters_keep_accepted_email_witness :
  BookingModel.emailSetters (js "Ada@Example.ORG") = toLowerCase (js "Ada@Example.ORG") /\
  test BookingModel.EMAIL_REGEX (BookingModel.emailSetters (js "Ada@Example.ORG")) = true.
Proof.
  apply (proj1 X16_setters_keep_accepted_email). reflexivity.
Defined.

(* ===================================================================== *)
(** * More on the connection cache *)
(* ===================================================================== *)

Section Sessions.

Variable Mongoose : Type.

Lemma calls_connected (settle : Mongodb.Promise -> Settled Mongoose)
  (n : nat) (w : Mongodb.Process Mongoose) (c : Mongoose) :
  Mongodb.conn (Mongodb.cached w) = Some c ->
  calls settle n w = (w, repeat (Fulfilled c) n).
Proof.
  intros Hc. induction n as [|n IH]; [reflexivity|].
  cbn [calls]. unfold Mongodb.connectDB. rewrite Hc, IH. reflexivity.
Qed.

Lemma connectDB_fulfilled (settle : Mongodb.Promise -> Settled Mongoose)
  (w : Mongodb.Process Mongoose) (c : Mongoose) :
  snd (Mongodb.connectDB settle w) = Fulfilled c ->
  Mongodb.conn (Mongodb.cached (fst (Mongodb.connectDB settle w))) = Some c.
Proof.
  unfold Mongodb.connectDB, Mongodb.ensurePromise.
  destruct w as [[cn pr] k]; simpl.
  destruct cn as [c0|]; simpl; [congruence|].
  destruct pr as [p|]; simpl.
  - destruct (settle p); simpl; congruence.
  - destruct (settle k); simpl; congruence.
Qed.

(** From an empty cache: the calls fail one after the other, each on a new
    attempt, until an attempt connects; from then on every call returns
    that connection. *)
Lemma calls_from_empty (settle : Mongodb.Promise -> Settled Mongoose) (n : nat) :
  forall k,
  exists es,
    (calls settle n (Mongodb.mkProcess (Mongodb.mkCache None None) k)
     = (Mongodb.mkProcess (Mongodb.mkCache None None) (k + length es),
        map Rejected es)
     /\ length es = n)
    \/
    (exists c j,
        calls settle n (Mongodb.mkProcess (Mongodb.mkCache None None) k)
        = (Mongodb.mkProcess (Mongodb.mkCache (Some c) (Some (k + length es)))
                             (S (k + length es)),
           map Rejected es ++ repeat (Fulfilled c) (S j))
        /\ S (length es + j) = n
        /\ settle (k + length es) = Fulfilled c).
Proof.
  induction n as [|n IH]; intros k.
  - exists []. left. simpl. rewrite Nat.add_0_r. now split.
  - cbn [calls]. unfold Mongodb.connectDB, Mongodb.ensurePromise.
    cbn [Mongodb.conn Mongodb.promise Mongodb.cached Mongodb.connects].
    destruct (settle k) as [c|e] eqn:Hk.
    + exists []. right. exists c, n.
      rewrite (calls_connected settle n
                 (Mongodb.mkProcess (Mongodb.mkCache (Some c) (Some k)) (S k))
                 c eq_refl).
      simpl. rewrite Nat.add_0_r. now repeat split.
    + destruct (IH (S k)) as (es & [[Hc Hl] | (c & j & Hc & Hl & Hs)]).
      * exists (e :: es). left. rewrite Hc. simpl.
        rewrite Nat.add_succ_r. split; [reflexivity | now rewrite Hl].
      * exists (e :: es). right. exists c, j. rewrite Hc. simpl.
        rewrite !Nat.add_succ_r. simpl in Hs. repeat split; try assumption.
        now rewrite <- Hl.
Qed.

End Sessions.

(** X17.  Once a call of [connectDB] has been fulfilled, every later call
    returns the same connection and leaves the state as it is, without a
    further call of [mongoose.connect], however later attempts would
    settle. *)
Theorem X17_connection_reused
  (Mongoose : Type) (settle settle' : Mongodb.Promise -> Settled Mongoose)
  (w : Mongodb.Process Mongoose) (c : Mongoose) (n : nat) :
  snd (Mongodb.connectDB settle w) = Fulfilled c ->
  calls settle' n (fst (Mongodb.connectDB settle w))
  = (fst (Mongodb.connectDB settle w), repeat (Fulfilled c) n).
Proof. intros H. apply calls_connected. now apply connectDB_fulfilled. Qed.

Lemma X17_connection_reused_witness :
  calls (fun _ => Rejected (MkError "network down")) 3
    (fst (Mongodb.connectDB (fun _ => Fulfilled 1) Mongodb.initial))
  = (fst (Mongodb.connectDB (fun _ => Fulfilled 1) Mongodb.initial),
     repeat (Fulfilled 1) 3).
Proof.
  apply (X17_connection_reused nat (fun _ => Fulfilled 1)). reflexivity.
Defined.

(** X18.  A call that finds no connection but a promise in the cache waits
    for that promise: it makes no call of [mongoose.connect] and settles as
    the cached attempt settles. *)
Theorem X18_attempt_in_flight_is_shared
  (Mongoose : Type) (settle : Mongodb.Promise -> Settled Mongoose)
  (w : Mongodb.Process Mongoose) (p : Mongodb.Promise) :
  Mongodb.conn (Mongodb.cached w) = None ->
  Mongodb.promise (Mongodb.cached w) = Some p ->
  Mongodb.connects (fst (Mongodb.connectDB settle w)) = Mongodb.connects w /\
  snd (Mongodb.connectDB settle w) = settle p.
Proof.
  unfold Mongodb.connectDB, Mongodb.ensurePromise.
  destruct w as [[cn pr] k]; simpl. intros -> ->. simpl.
  destruct (settle p); simpl; split; reflexivity.
Qed.

Lemma X18_attempt_in_flight_is_shared_witness :
  Mongodb.connects
    (fst (Mongodb.connectDB Mongodb.refusedOnce
            (Mongodb.mkProcess (Mongodb.mkCache None (Some 1)) 2)))
  = 2 /\
  snd (Mongodb.connectDB Mongodb.refusedOnce
         (Mongodb.mkProcess (Mongodb.mkCache None (Some 1)) 2))
  = Mongodb.refusedOnce 1.
Proof.
  apply X18_attempt_in_flight_is_shared; reflexivity.
Defined.

(** X19.  A series of calls from the initial cache, each awaited before the
    next, is a run of rejected calls followed by fulfilled calls that all
    return one connection.  Each rejected call has cost one call of
    [mongoose.connect], and the fulfilled ones together one more: the cache
    is left empty after failures only, and with the connection otherwise. *)
Theorem X19_sessions
  (Mongoose : Type) (settle : Mongodb.Promise -> Settled Mongoose) (n : nat) :
  exists es,
    (snd (calls settle n Mongodb.initial) = map Rejected es /\
     length es = n /\
     Mongodb.cached (fst (calls settle n Mongodb.initial))
     = Mongodb.mkCache None None /\
     Mongodb.connects (fst (calls settle n Mongodb.initial)) = length es)
    \/
    (exists c j,
        snd (calls settle n Mongodb.initial)
        = map Rejected es ++ repeat (Fulfilled c) (S j) /\
        S (length es + j) = n /\
        Mongodb.conn (Mongodb.cached (fst (calls settle n Mongodb.initial)))
        = Some c /\
        Mongodb.connects (fst (calls settle n Mongodb.initial))
        = S (length es)).
Proof.
  destruct (calls_from_empty Mongoose settle n 0)
    as (es & [[Hc Hl] | (c & j & Hc & Hl & Hs)]);
    exists es; unfold Mongodb.initial; rewrite Hc; simpl.
  - left. now repeat split.
  - right. exists c, j. now repeat split.
Qed.

(** X20.  Loading the module fails when [MONGODB_URI] is unset or empty.
    Loading it again in a process where it was loaded before keeps the
    cache: a connection made before the reload is what the first call
    behind the reload returns, without a call of [mongoose.connect]. *)
Theorem X20_reload_keeps_connection
  (Mongoose : Type) (settle settle' : Mongodb.Promise -> Settled Mongoose) :
  (forall uri global,
      falsy uri = true ->
      exists e, @loadModule Mongoose uri global = inl e) /\
  (forall uri w c,
      falsy uri = false ->
      snd (Mongodb.connectDB settle w) = Fulfilled c ->
      exists w',
        loadModule uri (Some (fst (Mongodb.connectDB settle w))) = inr w' /\
        Mongodb.connectDB settle' w' = (w', Fulfilled c) /\
        Mongodb.connects w'
        = Mongodb.connects (fst (Mongodb.connectDB settle w))).
Proof.
  split.
  - intros uri global Hu. unfold loadModule. rewrite Hu. eexists. reflexivity.
  - intros uri w c Hu Hc. unfold loadModule. rewrite Hu.
    eexists. split; [reflexivity|]. split; [|reflexivity].
    pose proof (calls_connected Mongoose settle' 1 _ c
                  (connectDB_fulfilled Mongoose settle w c Hc)) as H.
    cbn [calls] in H.
    destruct (Mongodb.connectDB settle' (fst (Mongodb.connectDB settle w)))
      as [w1 r1]. now injection H as -> ->.
Qed.

Lemma X20_reload_keeps_connection_witness :
  (exists e, @loadModule nat (Some (js "")) None = inl e) /\
  exists w',
    loadModule (Some (js "mongodb://localhost/dev"))
      (Some (fst (Mongodb.connectDB (fun _ => Fulfilled 1) Mongodb.initial)))
    = inr w' /\
    Mongodb.connectDB (fun _ => Rejected (MkError "network down")) w'
    = (w', Fulfilled 1) /\
    Mongodb.connects w'
    = Mongodb.connects (fst (Mongodb.connectDB (fun _ => Fulfilled 1) Mongodb.initial)).
Proof.
  split.
  - apply (proj1 (X20_reload_keeps_connection nat (fun _ => Fulfilled 1)
                    (fun _ => Rejected (MkError "network down")))).
    reflexivity.
  - apply (proj2 (X20_reload_keeps_connection nat (fun _ => Fulfilled 1)
                    (fun _ => Rejected (MkError "network down"))));
      reflexivity.
Defined.

(* ===================================================================== *)
(** * Running the hook again *)
(* ===================================================================== *)

Lemma trimItems_result (items items' : Items) :
  trimItems items = Some items' -> isStrings (Some items') = true.
Proof.
  intros H. apply trimItems_Some in H. destruct H as [-> H].
  change (Some (map (option_map trim) items)) with (trimmedItems (Some items)).
  now rewrite isStrings_trimmed.
Qed.

Section RunAgain.

Variable E : Engine.

Ltac again_unfold :=
  cbv [preSave preSaveBody forEach requiredStringFields bind requireField this
       next_error assign ret get set set_slug set_agenda set_tags normalizeDate
       normalizeTime updateSlug trimAgenda trimTags String_
       verdict firstMissing find
       title slug description overview image venue location date time mode
       audience agenda organizer tags isModified
       present parsedDate timeMatch trimmed option_map
       invalidDate invalidTime fst snd negb].

Ltac again_arrays :=
  unfold stringArrays; cbn [agenda tags];
  repeat match goal with
         | H : isStrings _ = _ |- _ => rewrite H
         end;
  cbn [andb isStrings].

Ltac again_known :=
  rewrite ?trim_idem;
  repeat match goal with
         | H : (Datatypes.length (trim ?x) =? 0) = _ |- _ => rewrite H; clear H
         end;
  again_unfold; again_arrays.

Ltac again_require x :=
  destruct x as [x|];
  [destruct (Datatypes.length (trim x) =? 0) eqn:?|];
  again_unfold;
  [again_known; exact (fun H => H) | | again_known; exact (fun H => H)].

Ltac again_items x H :=
  destruct x as [x|];
  [destruct (trimItems x) as [?|] eqn:H;
   [apply trimItems_result in H | apply trimItems_None in H]|];
  again_unfold;
  [| again_known; exact (fun H => H) | again_known; exact (fun H => H)].

(** Whatever a failed run has already trimmed or normalized in place, the
    hook fails on the document it left with the same error. *)
Lemma preSave_failure_stable (d : EventDocument) (e : Error) :
  snd (preSave E d) = Some e -> snd (preSave E (fst (preSave E d))) = Some e.
Proof.
  rewrite (preSave_verdict E (fst (preSave E d))).
  destruct d as [ti sl de ov im ve lo da tm mo au ag og tg md].
  again_unfold.
  again_require ti. again_require de. again_require ov. again_require im.
  again_require ve. again_require lo. again_require da. again_require tm.
  again_require mo. again_require au. again_require og.
  again_items ag Hag. again_items tg Htg.
  destruct (Date_getTime E (trim da)) as [t|] eqn:Hdate.
  - destruct (exec timeRegex (trim (trim tm))) as [m|] eqn:Htime.
    + again_unfold.
      match goal with
      | |- context [if ?c || falsy sl then _ else _] => destruct (c || falsy sl)
      end; again_unfold; discriminate.
    + again_unfold. again_known.
      pose proof (Date_getTime_range E _ _ Hdate) as Ht.
      rewrite !splitHead_toISOString, !datePortion_trim.
      rewrite (Date_getTime_datePortion E t Ht).
      pose proof (present_datePortion t Ht) as Hp. simpl in Hp.
      rewrite datePortion_trim in Hp. apply negb_true_iff in Hp. rewrite Hp.
      again_unfold. again_arrays.
      rewrite ?trim_idem in *. rewrite Htime. exact (fun H => H).
  - again_unfold. again_known. rewrite Hdate. exact (fun H => H).
Qed.

End RunAgain.

(** X21.  The verdict of the hook is stable: run again on the document a
    run has left, failed or not, the hook gives the same verdict (a failed
    run trims and normalizes in place before it stops, which changes nothing
    to the check that failed). *)
Theorem X21_verdict_stable (E : Engine) (d : EventDocument) :
  snd (preSave E (fst (preSave E d))) = snd (preSave E d).
Proof.
  destruct (snd (preSave E d)) as [e|] eqn:Hr.
  - now apply preSave_failure_stable.
  - pose proof (preSave_ok_arrays E d Hr) as Ha.
    destruct (preSave_ok E d Hr) as (t & m & Hp & Hd & Hm & ->).
    now rewrite (normalized_fixed E d t m Hp Ha Hd Hm).
Qed.

(* ===================================================================== *)
(** * A calendar date is stored as it is *)
(* ===================================================================== *)

Section CalendarDates.

Local Open Scope Z_scope.

Lemma YearFromDay_unique (d y : Z) :
  DayFromYear y <= d < DayFromYear (y + 1) -> YearFromDay d = y.
Proof.
  intros [Hlo Hhi]. pose proof (YearFromDay_spec d) as [Slo Shi].
  destruct (Z.lt_trichotomy (YearFromDay d) y) as [H | [H | H]]; [|exact H|].
  - pose proof (DayFromYear_mono (YearFromDay d + 1) y ltac:(lia)). lia.
  - pose proof (DayFromYear_mono (y + 1) (YearFromDay d) ltac:(lia)). lia.
Qed.

Ltac month_norm :=
  repeat match goal with
         | |- context [monthStart (?k - 1 + 1)%Z _] =>
             let v := eval compute in (k - 1 + 1)%Z in
             change (k - 1 + 1)%Z with v
         | |- context [monthStart (?k - 1)%Z _] =>
             let v := eval compute in (k - 1)%Z in change (k - 1)%Z with v
         | H : context [monthStart (?k - 1 + 1)%Z _] |- _ =>
             let v := eval compute in (k - 1 + 1)%Z in
             change (k - 1 + 1)%Z with v in H
         | H : context [monthStart (?k - 1)%Z _] |- _ =>
             let v := eval compute in (k - 1)%Z in change (k - 1)%Z with v in H
         end;
  cbn [monthStart] in *.

Lemma month_cases (m : Z) :
  1 <= m <= 12 ->
  m = 1 \/ m = 2 \/ m = 3 \/ m = 4 \/ m = 5 \/ m = 6 \/
  m = 7 \/ m = 8 \/ m = 9 \/ m = 10 \/ m = 11 \/ m = 12.
Proof. lia. Qed.

(** The day of a calendar date has that date's year, month and day. *)
Lemma fields_of_MakeDay (y m dd : Z) :
  1 <= m <= 12 -> 1 <= dd <= DaysInMonth y (m - 1) ->
  let t := MakeDay y (m - 1) dd * msPerDay in
  YearFromTime t = y /\ MonthFromTime t = m - 1 /\ DateFromTime t = dd.
Proof.
  intros Hm Hd t.
  assert (HDay : Day t = MakeDay y (m - 1) dd)
    by (unfold t, Day; apply Z.div_mul; discriminate).
  pose proof (DayFromYear_succ y) as Hsucc. unfold DaysInYear in Hsucc.
  unfold DaysInMonth in Hd. unfold MakeDay in HDay.
  rewrite Z.div_small, Z.mod_small, Z.add_0_r in HDay by lia.
  set (l := if isLeapYear y then 1 else 0) in *.
  assert (Hl : l = 0 \/ l = 1) by (unfold l; destruct (isLeapYear y); auto).
  assert (Hl' : (if isLeapYear y then 366 else 365) = 365 + l)
    by (unfold l; destruct (isLeapYear y); reflexivity).
  rewrite Hl' in Hsucc.
  assert (Hy : YearFromTime t = y).
  { unfold YearFromTime. rewrite HDay. apply YearFromDay_unique.
    destruct (month_cases m Hm) as [-> | [-> | [-> | [-> | [-> | [-> |
      [-> | [-> | [-> | [-> | [-> | ->]]]]]]]]]]];
      month_norm; lia. }
  assert (Hleap : InLeapYear t = l) by (unfold InLeapYear; now rewrite Hy).
  assert (Hdwy : DayWithinYear t = monthStart (m - 1) l + dd - 1)
    by (unfold DayWithinYear; rewrite Hy, HDay; lia).
  split; [exact Hy|].
  unfold DateFromTime, MonthFromTime. rewrite Hdwy, Hleap.
  destruct (month_cases m Hm) as [-> | [-> | [-> | [-> | [-> | [-> |
      [-> | [-> | [-> | [-> | [-> | ->]]]]]]]]]]];
    month_norm;
    repeat match goal with
           | |- context [if ?a <? ?b then _ else _] =>
               destruct (Z.ltb_spec a b); try lia
           end; cbn [monthStart]; split; lia.
Qed.

Lemma parseMonthDay_valid (y m dd : Z) :
  1 <= m <= 12 -> 1 <= dd <= DaysInMonth y (m - 1) ->
  parseMonthDay y (js "-" ++ pad 2 m ++ js "-" ++ pad 2 dd) = Some (m, dd, []).
Proof.
  intros Hm Hd.
  assert (Hdd : dd <= 31).
  { unfold DaysInMonth in Hd.
    destruct (isLeapYear y);
      destruct (month_cases m Hm) as [-> | [-> | [-> | [-> | [-> | [-> |
        [-> | [-> | [-> | [-> | [-> | ->]]]]]]]]]]];
      month_norm; lia. }
  unfold parseMonthDay. change (js "-") with ["-"%char].
  cbn [app startsWith tl]. change (isChar "-" "-") with true. cbn iota.
  rewrite (digits_pad 1 m) by (simpl; lia).
  replace ((1 <=? m) && (m <=? 12)) with true
    by (symmetry; apply andb_true_intro; split; apply Z.leb_le; lia).
  cbn [startsWith tl]. change (isChar "-" "-") with true. cbn iota.
  rewrite <- (app_nil_r (pad 2 dd)).
  rewrite (digits_pad 1 dd) by (simpl; lia).
  replace ((1 <=? dd) && (dd <=? DaysInMonth y (m - 1))) with true
    by (symmetry; apply andb_true_intro; split; apply Z.leb_le; lia).
  reflexivity.
Qed.

(** A date YYYY-MM-DD of the calendar parses, in every engine, to the
    midnight of that day, whose printed date is the same string. *)
Lemma calendar_date_round_trip (E : Engine) (y m dd : Z) :
  0 <= y <= 9999 -> 1 <= m <= 12 -> 1 <= dd <= DaysInMonth y (m - 1) ->
  let s := pad 4 y ++ js "-" ++ pad 2 m ++ js "-" ++ pad 2 dd in
  let t := MakeDay y (m - 1) dd * msPerDay in
  trim s = s /\ Date_getTime E s = Some t /\ datePortion t = s.
Proof.
  intros Hy Hm Hd s t.
  destruct (fields_of_MakeDay y m dd Hm Hd) as (Fy & Fm & Fd). fold t in Fy, Fm, Fd.
  assert (Hys : yearString y = pad 4 y).
  { unfold yearString.
    replace ((0 <=? y) && (y <=? 9999)) with true
      by (symmetry; apply andb_true_intro; split; apply Z.leb_le; lia).
    reflexivity. }
  assert (Hprint : datePortion t = s).
  { unfold datePortion. rewrite Fy, Fm, Fd, Hys.
    now replace (m - 1 + 1) with m by lia. }
  assert (Hrange : inTimeRange t).
  { unfold inTimeRange, t, msPerDay.
    pose proof (YearFromDay_spec (Day t)) as [Slo Shi].
    fold (YearFromTime t) in Slo, Shi. rewrite Fy in Slo, Shi.
    assert (HDay : Day t = MakeDay y (m - 1) dd)
      by (unfold t, Day; apply Z.div_mul; discriminate).
    rewrite HDay in Slo, Shi.
    pose proof (DayFromYear_mono 0 y ltac:(lia)) as M0.
    pose proof (DayFromYear_mono (y + 1) 10000 ltac:(lia)) as M1.
    assert (-100000000 < DayFromYear 0) by (vm_compute; reflexivity).
    assert (DayFromYear 10000 < 100000000) by (vm_compute; reflexivity).
    lia. }
  split; [rewrite <- Hprint; apply datePortion_trim|].
  split; [|exact Hprint].
  unfold Date_getTime, Date_parse, parseISO. unfold s.
  rewrite <- Hys, parseYear_yearString by lia.
  rewrite (parseMonthDay_valid y m dd Hm Hd).
  unfold MakeDate, TimeClip. rewrite Z.add_0_r. fold t.
  unfold inTimeRange in Hrange. apply Z.leb_le in Hrange. now rewrite Hrange.
Qed.

End CalendarDates.

(** X22.  A date of the calendar written YYYY-MM-DD (year 0 to 9999) passes
    the date check in every engine and is stored as it is. *)
Theorem X22_calendar_date_kept
  (E : Engine) (d : EventDocument) (y m dd : Z) :
  (0 <= y <= 9999)%Z -> (1 <= m <= 12)%Z ->
  (1 <= dd <= DaysInMonth y (m - 1))%Z ->
  date d = Some (pad 4 y ++ js "-" ++ pad 2 m ++ js "-" ++ pad 2 dd) ->
  parsedDate E d = Some (MakeDay y (m - 1) dd * msPerDay)%Z /\
  (snd (preSave E d) = None -> date (fst (preSave E d)) = date d).
Proof.
  intros Hy Hm Hd Hdate.
  destruct (calendar_date_round_trip E y m dd Hy Hm Hd) as (Htrim & Hparse & Hprint).
  assert (Hp : parsedDate E d = Some (MakeDay y (m - 1) dd * msPerDay)%Z).
  { unfold parsedDate, trimmed. rewrite Hdate. cbn [option_map].
    now rewrite Htrim. }
  split; [exact Hp|].
  intros Hok. destruct (preSave_date_portion E d Hok) as (t & Ht & Hs & _).
  rewrite Hs, Hdate. rewrite Hp in Ht. injection Ht as <-. now rewrite Hprint.
Qed.

Lemma X22_calendar_date_kept_witness :
  parsedDate utcEngine
    (sampleEvent (js "Tech Meetup") None (js "2024-02-29") (js "09:05") false)
  = Some (MakeDay 2024 (2 - 1) 29 * msPerDay)%Z /\
  date (fst (preSave utcEngine
          (sampleEvent (js "Tech Meetup") None (js "2024-02-29") (js "09:05")
                       false)))
  = Some (js "2024-02-29").
Proof.
  assert (H0 : (0 <= 2024 <= 9999)%Z) by (split; discriminate).
  assert (H1 : (1 <= 2 <= 12)%Z) by (split; discriminate).
  assert (H2 : (1 <= 29 <= DaysInMonth 2024 (2 - 1))%Z)
    by (vm_compute; split; discriminate).
  assert (H3 : date (sampleEvent (js "Tech Meetup") None (js "2024-02-29")
                                 (js "09:05") false)
               = Some (pad 4 2024 ++ js "-" ++ pad 2 2 ++ js "-" ++ pad 2 29))
    by (vm_compute; reflexivity).
  assert (H4 : snd (preSave utcEngine
                      (sampleEvent (js "Tech Meetup") None (js "2024-02-29")
                                   (js "09:05") false)) = None)
    by (vm_compute; reflexivity).
  destruct (X22_calendar_date_kept utcEngine _ 2024 2 29 H0 H1 H2 H3) as [P Q].
  split; [exact P | exact (Q H4)].
Defined.
